(** * automana: the rule pipeline and the HTML linkifier

    A shallow embedding of [rules] (gates, query mutators, the executor
    [exec], the helpers [fixUnlinkedURL], [splitTextNodes],
    [hasUnlinkedURL], [nodeHasUnlinkedURL], [timeBefore]) and of
    [client/section.go] (the lookups of sections by name), followed by the
    properties proved about them. *)

From Stdlib Require Import ZArith String Ascii List Lia Bool.
From stdpp Require Import base option list gmap strings.

Open Scope string_scope.

(** ** Part 1: golang.org/x/net/html nodes, as the helpers use them *)

Module Html.

(** [html.NodeType]. *)
Inductive NodeType : Type :=
| ErrorNode
| TextNode
| DocumentNode
| ElementNode
| CommentNode
| DoctypeNode
| RawNode.

Definition NodeType_eqb (a b : NodeType) : bool :=
  match a, b with
  | ErrorNode, ErrorNode | TextNode, TextNode | DocumentNode, DocumentNode
  | ElementNode, ElementNode | CommentNode, CommentNode
  | DoctypeNode, DoctypeNode | RawNode, RawNode => true
  | _, _ => false
  end.

(** [html.Attribute]. *)
Record Attribute : Type := mkAttribute {
  AttrNamespace : string;
  Key : string;
  Val : string
}.

(** [atom.A], the atom of the tag name [a]; the zero atom is [0]. *)
Definition atom_A : Z := 1.

(** [*html.Node]: a pointer is either [nil] or a node together with what its
    [FirstChild] and [NextSibling] pointers reach.  The helpers read and write
    [Type], [DataAtom], [Data], [Attr], [FirstChild] and [NextSibling] only;
    [Parent], [PrevSibling] and [LastChild] are never read or written by them
    and are left out.  A document produced by the parser is a tree (no node is
    reachable twice), so the in-place updates of the source are updates of
    this value. *)
Inductive Node : Type :=
| nilNode
| mkNode (Type_ : NodeType) (DataAtom : Z) (Data : string) (Namespace : string)
         (Attr : list Attribute) (FirstChild : Node) (NextSibling : Node).

(** [&html.Node{Type: html.TextNode, Data: d, NextSibling: next}] *)
Definition newText (d : string) (next : Node) : Node :=
  mkNode TextNode 0 d "" [] nilNode next.

Definition newline : string := String "010"%char "".

(** [strings.Split(s, "\n")]: the pieces between newlines; never empty. *)
Fixpoint Split (s : string) : list string :=
  match s with
  | EmptyString => [""]
  | String c rest =>
      if Ascii.eqb c "010"%char then "" :: Split rest
      else match Split rest with
           | line :: lines => String c line :: lines
           | [] => [String c ""]
           end
  end.

(** [strings.HasPrefix(line, "http://") || strings.HasPrefix(line, "https://")] *)
Definition hasURLPrefix (line : string) : bool :=
  String.prefix "http://" line || String.prefix "https://" line.

(** [nodeHasUnlinkedURL]; only ever called on a non-nil node. *)
Definition nodeHasUnlinkedURL (node : Node) : bool :=
  match node with
  | nilNode => false
  | mkNode ty _ data _ _ _ _ =>
      if NodeType_eqb ty TextNode then existsb hasURLPrefix (Split data)
      else false
  end.

(** [node.Type == html.ElementNode && node.Data == "a"] *)
Definition isLink (ty : NodeType) (data : string) : bool :=
  NodeType_eqb ty ElementNode && String.eqb data "a".

(** The loop of [splitTextNodes]: every line becomes a fresh text node placed
    after [prev]; a fresh newline node follows every line but the last.  Each
    fresh node is spliced in front of [next], the old [NextSibling]. *)
Fixpoint insertLines (lines : list string) (next : Node) : Node :=
  match lines with
  | [] => next
  | line :: rest =>
      newText line
        (match rest with
         | [] => next
         | _ :: _ => newText newline (insertLines rest next)
         end)
  end.

(** [splitTextNodes]: the node keeps its place with [Data] emptied. *)
Definition splitTextNodes (node : Node) : Node :=
  match node with
  | nilNode => nilNode
  | mkNode ty at_ data ns attr fc next =>
      mkNode ty at_ "" ns attr fc (insertLines (Split data) next)
  end.

(** Body of the [for iter := node; ...] loop of [fixUnlinkedURL]. *)
Definition linkify (iter : Node) : Node :=
  if nodeHasUnlinkedURL iter then
    match iter with
    | nilNode => nilNode
    | mkNode _ _ data ns attr _ next =>
        mkNode ElementNode atom_A "a" ns
               (attr ++ [mkAttribute "" "href" data])
               (newText data nilNode) next
    end
  else iter.

(** [for iter := node; iter != next; iter = iter.NextSibling]: [next] is
    compared as a pointer, so the loop visits [node] and the nodes that
    [splitTextNodes] created, [n] nodes in all. *)
Fixpoint linkLoop (n : nat) (iter : Node) : Node :=
  match n with
  | O => iter
  | S n' =>
      match linkify iter with
      | nilNode => nilNode
      | mkNode ty at_ data ns attr fc next =>
          mkNode ty at_ data ns attr fc (linkLoop n' next)
      end
  end.

(** Number of nodes from [node] up to [next]: the emptied node, one node per
    line and one newline node between two lines. *)
Definition runLength (lines : list string) : nat :=
  1 + (length lines + (length lines - 1)).

(** [fixUnlinkedURL]; the result is the node the pointer designates after
    the call. *)
Fixpoint fixUnlinkedURL (node : Node) : Node :=
  match node with
  | nilNode => nilNode
  | mkNode ty at_ data ns attr fc sib =>
      if isLink ty data then node
      else
        let node' :=
          mkNode ty at_ data ns attr (fixUnlinkedURL fc) (fixUnlinkedURL sib) in
        if nodeHasUnlinkedURL node' then
          linkLoop (runLength (Split data)) (splitTextNodes node')
        else node'
  end.

(** [hasUnlinkedURL] *)
Fixpoint hasUnlinkedURL (node : Node) : bool :=
  match node with
  | nilNode => false
  | mkNode ty _ data _ _ fc sib =>
      if isLink ty data then false
      else if nodeHasUnlinkedURL node then true
      else if hasUnlinkedURL fc then true
      else if hasUnlinkedURL sib then true
      else false
  end.

End Html.

(** ** Part 2: [html.Render], for the nodes the linkifier produces *)

Module Render.
Import Html.

Definition quote : string := String "034"%char "".

(** [escape] of x/net/html: the characters [&], ['], [<], [>], the double
    quote and carriage return are replaced by character references. *)
Fixpoint escape (s : string) : string :=
  match s with
  | EmptyString => ""
  | String c rest =>
      (if Ascii.eqb c "&"%char then "&amp;"
       else if Ascii.eqb c "'"%char then "&#39;"
       else if Ascii.eqb c "<"%char then "&lt;"
       else if Ascii.eqb c ">"%char then "&gt;"
       else if Ascii.eqb c "034"%char then "&#34;"
       else if Ascii.eqb c "013"%char then "&#13;"
       else String c "") ++ escape rest
  end.

(** One attribute: a space, the key (with its namespace, if any), and the
    escaped value between double quotes. *)
Definition renderAttr (a : Attribute) : string :=
  " " ++ (if String.eqb (AttrNamespace a) "" then ""
          else AttrNamespace a ++ ":")
      ++ Key a ++ "=" ++ quote ++ escape (Val a) ++ quote.

(** Elements that [html.Render] treats specially (void elements, raw-text
    elements, elements with a leading-newline rule); they are outside the
    fragment modelled here. *)
Definition specialTags : list string :=
  ["area"; "base"; "br"; "col"; "embed"; "hr"; "img"; "input"; "keygen";
   "link"; "meta"; "param"; "source"; "track"; "wbr";
   "iframe"; "noembed"; "noframes"; "noscript"; "plaintext"; "script";
   "style"; "xmp"; "pre"; "listing"; "textarea"].

Definition ordinaryTag (name : string) : bool :=
  negb (existsb (String.eqb name) specialTags).

(** [renderSiblings n] is what the child loop
    [for c := n; c != nil; c = c.NextSibling] of [html.Render] writes: text
    nodes escaped, ordinary elements as start tag, children, end tag, a
    document node as its children.  [None] for a node outside this fragment. *)
Fixpoint renderSiblings (n : Node) : option string :=
  match n with
  | nilNode => Some ""
  | mkNode ty _ data _ attr fc sib =>
      let self :=
        match ty with
        | TextNode => Some (escape data)
        | DocumentNode => renderSiblings fc
        | ElementNode =>
            if ordinaryTag data then
              match renderSiblings fc with
              | Some inner =>
                  Some ("<" ++ data ++ String.concat "" (map renderAttr attr)
                        ++ ">" ++ inner ++ "</" ++ data ++ ">")
              | None => None
              end
            else None
        | _ => None
        end in
      match self, renderSiblings sib with
      | Some s, Some rest => Some (s ++ rest)
      | _, _ => None
      end
  end.

End Render.

(** ** Part 3: results, state and the collaborators of the rule pipeline *)

(** A Go [error] is modelled by its message. *)
Definition Err : Type := string.

(** A Go result [(value, error)]: the value when the error is [nil]. *)
Inductive Result (A : Type) : Type :=
| Ok (a : A)
| Fail (e : Err).
Arguments Ok {A} a.
Arguments Fail {A} e.

(** A computation that reads and updates a state [S] and may fail. *)
Definition M (S A : Type) : Type := S -> S * Result A.

Definition ret {S A : Type} (a : A) : M S A := fun s => (s, Ok a).

Definition bind {S A B : Type} (m : M S A) (k : A -> M S B) : M S B :=
  fun s =>
    match m s with
    | (s', Ok a) => k a s'
    | (s', Fail e) => (s', Fail e)
    end.

Declare Scope go_scope.
Delimit Scope go_scope with go.
Notation "x <- m ;; k" := (bind m (fun x => k))
  (at level 100, m at next level, right associativity) : go_scope.
Notation "m ;;; k" := (bind m (fun _ => k))
  (at level 100, right associativity) : go_scope.

(** [civil.Time] *)
Record Time : Type := mkTime {
  Hour : Z;
  Minute : Z;
  Second : Z;
  Nanosecond : Z
}.

(** [client.Section] *)
Record Section_ : Type := mkSection {
  GID : string;
  Name : string
}.

(** The types of the client package and of the time libraries that the rules
    only pass around. *)
Class Domain : Type := {
  World : Type;            (* the remote service, the wall clock, the output *)
  Client : Type;           (* client.Client *)
  WorkspaceClient : Type;  (* client.WorkspaceClient *)
  User : Type;             (* client.User *)
  Project : Type;          (* client.Project *)
  Tag : Type;              (* client.Tag *)
  Task : Type;             (* client.Task *)
  Location : Type;         (* time.Location *)
  Date : Type              (* civil.Date *)
}.

(** [client.SearchQuery], with the fields the rules set. *)
Record SearchQuery `{Domain} : Type := mkSearchQuery {
  AssigneeAny : list User;
  SectionsAny : list Section_;
  TagsAny : list Tag;
  TagsNot : list Tag;
  DueOn : option Date;
  DueAfter : option Date;
  DueBefore : option Date;
  Completed : option bool;
  Due : option bool
}.

(** [&client.SearchQuery{}] *)
Definition emptyQuery `{Domain} : SearchQuery :=
  mkSearchQuery _ [] [] [] [] None None None None None.

(** The operations of the client package and of the time libraries that the
    rules call; each call into the remote service may change the world and
    may fail. *)
Class Collaborators `{Domain} : Type := {
  LoadLocation : string -> Result Location;        (* time.LoadLocation *)
  ParseTime : string -> Result Time;               (* civil.ParseTime *)
  TimeOfNowIn : World -> Location -> Time;  (* civil.TimeOf(time.Now().In(loc)) *)
  DateOfNow : World -> Date;                (* civil.DateOf(time.Now()) *)
  AddDays : Date -> Z -> Date;                     (* civil.Date.AddDays *)
  GetMe : WorkspaceClient -> M World User;
  GetMyUserTaskList : WorkspaceClient -> M World Project;
  GetSections : WorkspaceClient -> Project -> M World (list Section_);
  GetTagsByName : WorkspaceClient -> M World (gmap string Tag);
  Search : WorkspaceClient -> SearchQuery -> M World (list Task);
  AddTaskToSection : WorkspaceClient -> Task -> Section_ -> M World unit;
  AssigneeSection : Task -> option Section_;       (* t.AssigneeSection *)
  TaskString : Task -> string                      (* t.String() *)
}.

(** ** Part 4: the rules package *)

Section Rules.
Context `{Collaborators}.
Open Scope go_scope.

(** The stage types of [rules].  A query mutator updates the query it is
    given in place, also when it returns an error, so it returns the query
    next to its error. *)
Definition workspaceClientGetter : Type := Client -> M World WorkspaceClient.
Definition gate : Type := WorkspaceClient -> M World bool.
Definition queryMutator : Type :=
  WorkspaceClient -> SearchQuery -> World -> World * SearchQuery * option Err.
Definition taskActor : Type := WorkspaceClient -> Task -> M World unit.
Definition taskFilter : Type :=
  WorkspaceClient -> SearchQuery -> Task -> M World bool.

(** [periodic], without its [done] channel. *)
Record periodic : Type := mkPeriodic {
  getWorkspaceClient : workspaceClientGetter;
  gates : list gate;
  queryMutators : list queryMutator;
  taskFilters : list taskFilter;
  taskActors : list taskActor
}.

(** *** Helpers *)

(** [timeBefore] *)
Definition timeBefore (t1 t2 : Time) : bool :=
  (Hour t1 <? Hour t2)%Z
  || ((Hour t1 =? Hour t2)%Z && (Minute t1 <? Minute t2)%Z)
  || ((Hour t1 =? Hour t2)%Z && (Minute t1 =? Minute t2)%Z
      && (Second t1 <? Second t2)%Z)
  || ((Hour t1 =? Hour t2)%Z && (Minute t1 =? Minute t2)%Z
      && (Second t1 =? Second t2)%Z && (Nanosecond t1 <? Nanosecond t2)%Z).

(** *** Gates *)

(** The gate that [WhenBetween(tz, start, end)] appends. *)
Definition WhenBetweenGate (tz start end_ : string) : gate :=
  fun _ w =>
    match LoadLocation tz with
    | Fail err => (w, Fail err)
    | Ok loc =>
        let now := TimeOfNowIn w loc in
        match ParseTime start with
        | Fail err => (w, Fail err)
        | Ok s =>
            match ParseTime end_ with
            | Fail err => (w, Fail err)
            | Ok e =>
                if timeBefore e s then
                  (w, Ok (timeBefore s now || timeBefore now e))
                else
                  (w, Ok (timeBefore s now && timeBefore now e))
            end
        end
    end.

Definition WhenBetween (tz start end_ : string) (p : periodic) : periodic :=
  mkPeriodic (getWorkspaceClient p)
             (gates p ++ [WhenBetweenGate tz start end_])
             (queryMutators p) (taskFilters p) (taskActors p).

(** *** Query mutators *)

Definition addMutator (m : queryMutator) (p : periodic) : periodic :=
  mkPeriodic (getWorkspaceClient p) (gates p) (queryMutators p ++ [m])
             (taskFilters p) (taskActors p).

Definition addActor (a : taskActor) (p : periodic) : periodic :=
  mkPeriodic (getWorkspaceClient p) (gates p) (queryMutators p)
             (taskFilters p) (taskActors p ++ [a]).

(** Assignments to one field of [*q]. *)
Definition setAssigneeAny (v : list User) (q : SearchQuery) : SearchQuery :=
  mkSearchQuery _ v (SectionsAny q) (TagsAny q) (TagsNot q) (DueOn q)
                (DueAfter q) (DueBefore q) (Completed q) (Due q).
Definition setSectionsAny (v : list Section_) (q : SearchQuery) : SearchQuery :=
  mkSearchQuery _ (AssigneeAny q) v (TagsAny q) (TagsNot q) (DueOn q)
                (DueAfter q) (DueBefore q) (Completed q) (Due q).
Definition setTagsAny (v : list Tag) (q : SearchQuery) : SearchQuery :=
  mkSearchQuery _ (AssigneeAny q) (SectionsAny q) v (TagsNot q) (DueOn q)
                (DueAfter q) (DueBefore q) (Completed q) (Due q).
Definition setTagsNot (v : list Tag) (q : SearchQuery) : SearchQuery :=
  mkSearchQuery _ (AssigneeAny q) (SectionsAny q) (TagsAny q) v (DueOn q)
                (DueAfter q) (DueBefore q) (Completed q) (Due q).
Definition setDueOn (v : option Date) (q : SearchQuery) : SearchQuery :=
  mkSearchQuery _ (AssigneeAny q) (SectionsAny q) (TagsAny q) (TagsNot q) v
                (DueAfter q) (DueBefore q) (Completed q) (Due q).
Definition setDueAfter (v : option Date) (q : SearchQuery) : SearchQuery :=
  mkSearchQuery _ (AssigneeAny q) (SectionsAny q) (TagsAny q) (TagsNot q)
                (DueOn q) v (DueBefore q) (Completed q) (Due q).
Definition setDueBefore (v : option Date) (q : SearchQuery) : SearchQuery :=
  mkSearchQuery _ (AssigneeAny q) (SectionsAny q) (TagsAny q) (TagsNot q)
                (DueOn q) (DueAfter q) v (Completed q) (Due q).
Definition setCompleted (v : option bool) (q : SearchQuery) : SearchQuery :=
  mkSearchQuery _ (AssigneeAny q) (SectionsAny q) (TagsAny q) (TagsNot q)
                (DueOn q) (DueAfter q) (DueBefore q) v (Due q).
Definition setDue (v : option bool) (q : SearchQuery) : SearchQuery :=
  mkSearchQuery _ (AssigneeAny q) (SectionsAny q) (TagsAny q) (TagsNot q)
                (DueOn q) (DueAfter q) (DueBefore q) (Completed q) v.

(** Modelled from the spec: [client.TRUE] and [client.FALSE] are declared in
    the client package outside the files at hand; the spec calls the field a
    completed flag that a mutator sets, so they are non-nil pointers to the
    two booleans. *)
Definition client_TRUE : option bool := Some true.
Definition client_FALSE : option bool := Some false.

Definition DueInDaysMutator (days : Z) : queryMutator :=
  fun _ q w =>
    match DueOn q with
    | Some _ => (w, q, Some "Multiple clauses set DueOn")
    | None =>
        let d := DateOfNow w in
        let d := AddDays d days in
        (w, setDueOn (Some d) q, None)
    end.

Definition DueInAtLeastDaysMutator (days : Z) : queryMutator :=
  fun _ q w =>
    match DueAfter q with
    | Some _ => (w, q, Some "Multiple clauses set DueAfter")
    | None =>
        let d := DateOfNow w in
        let d := AddDays d days in
        (w, setDueAfter (Some d) q, None)
    end.

Definition DueInAtMostDaysMutator (days : Z) : queryMutator :=
  fun _ q w =>
    match DueBefore q with
    | Some _ => (w, q, Some "Multiple clauses set DueBefore")
    | None =>
        let d := DateOfNow w in
        let d := AddDays d days in
        (w, setDueBefore (Some d) q, None)
    end.

Definition OnlyIncompleteMutator : queryMutator :=
  fun _ q w =>
    match Completed q with
    | Some _ => (w, q, Some "Multiple clauses set Completed")
    | None => (w, setCompleted client_FALSE q, None)
    end.

Definition OnlyCompleteMutator : queryMutator :=
  fun _ q w =>
    match Completed q with
    | Some _ => (w, q, Some "Multiple clauses set Completed")
    | None => (w, setCompleted client_TRUE q, None)
    end.

Definition WithoutDueMutator : queryMutator :=
  fun _ q w =>
    match Due q with
    | Some _ => (w, q, Some "Multiple clauses set Due")
    | None => (w, setDue (Some false) q, None)
    end.

Definition DueInDays (days : Z) := addMutator (DueInDaysMutator days).
Definition DueInAtLeastDays (days : Z) :=
  addMutator (DueInAtLeastDaysMutator days).
Definition DueInAtMostDays (days : Z) :=
  addMutator (DueInAtMostDaysMutator days).
Definition OnlyIncomplete := addMutator OnlyIncompleteMutator.
Definition OnlyComplete := addMutator OnlyCompleteMutator.
Definition WithoutDue := addMutator WithoutDueMutator.

(** The [for _, name := range names] loop of [WithTagsAnyOf]: tags found so
    far stay appended when a later name is missing. *)
Fixpoint appendTagsAny (tagsByName : gmap string Tag) (names : list string)
    (q : SearchQuery) : SearchQuery * option Err :=
  match names with
  | [] => (q, None)
  | name :: rest =>
      match tagsByName !! name with
      | None => (q, Some ("Tag '" ++ name ++ "' not found"))
      | Some tag => appendTagsAny tagsByName rest (setTagsAny (TagsAny q ++ [tag]) q)
      end
  end.

Definition WithTagsAnyOfMutator (names : list string) : queryMutator :=
  fun wc q w =>
    if (0 <? length (TagsAny q))%nat then
      (w, q, Some "Multiple clauses set TagsAny")
    else
      match GetTagsByName wc w with
      | (w', Fail err) => (w', q, Some err)
      | (w', Ok tagsByName) =>
          let '(q', err) := appendTagsAny tagsByName names q in (w', q', err)
      end.

(** The same loop of [WithoutTagsAnyOf]. *)
Fixpoint appendTagsNot (tagsByName : gmap string Tag) (names : list string)
    (q : SearchQuery) : SearchQuery * option Err :=
  match names with
  | [] => (q, None)
  | name :: rest =>
      match tagsByName !! name with
      | None => (q, Some ("Tag '" ++ name ++ "' not found"))
      | Some tag => appendTagsNot tagsByName rest (setTagsNot (TagsNot q ++ [tag]) q)
      end
  end.

Definition WithoutTagsAnyOfMutator (names : list string) : queryMutator :=
  fun wc q w =>
    if (0 <? length (TagsNot q))%nat then
      (w, q, Some "Multiple clauses set TagsNot")
    else
      match GetTagsByName wc w with
      | (w', Fail err) => (w', q, Some err)
      | (w', Ok tagsByName) =>
          let '(q', err) := appendTagsNot tagsByName names q in (w', q', err)
      end.

Definition WithTagsAnyOf (names : list string) :=
  addMutator (WithTagsAnyOfMutator names).
Definition WithoutTagsAnyOf (names : list string) :=
  addMutator (WithoutTagsAnyOfMutator names).

(** *** client/section.go *)

(** [GetSectionsByName]: the sections are entered into the map in list
    order, [secsByName[sec.Name] = sec]. *)
Definition GetSectionsByName (wc : WorkspaceClient) (project : Project)
  : M World (gmap string Section_) :=
  secs <- GetSections wc project ;;
  ret (foldl (fun secsByName sec => <[Name sec := sec]> secsByName) ∅ secs).

(** [GetSectionByName] *)
Definition GetSectionByName (wc : WorkspaceClient) (project : Project)
    (name : string) : M World Section_ :=
  secsByName <- GetSectionsByName wc project ;;
  match secsByName !! name with
  | None => fun w => (w, Fail ("Section '" ++ name ++ "' not found"))
  | Some sec => ret sec
  end.

(** *** The section stages *)

(** The [for _, name := range names] loop of [InMyTasksSections]. *)
Fixpoint appendSectionsAny (secsByName : gmap string Section_)
    (names : list string) (q : SearchQuery) : SearchQuery * option Err :=
  match names with
  | [] => (q, None)
  | name :: rest =>
      match secsByName !! name with
      | None => (q, Some ("Section '" ++ name ++ "' not found"))
      | Some sec =>
          appendSectionsAny secsByName rest
                            (setSectionsAny (SectionsAny q ++ [sec]) q)
      end
  end.

Definition InMyTasksSectionsMutator (names : list string) : queryMutator :=
  fun wc q w =>
    match GetMe wc w with
    | (w1, Fail err) => (w1, q, Some err)
    | (w1, Ok u) =>
        let q1 := setAssigneeAny (AssigneeAny q ++ [u]) q in
        match GetMyUserTaskList wc w1 with
        | (w2, Fail err) => (w2, q1, Some err)
        | (w2, Ok utl) =>
            match GetSectionsByName wc utl w2 with
            | (w3, Fail err) => (w3, q1, Some err)
            | (w3, Ok secsByName) =>
                let '(q2, err) := appendSectionsAny secsByName names q1 in
                (w3, q2, err)
            end
        end
    end.

(** The backup filter that [InMyTasksSections] appends. *)
Definition InMyTasksSectionsFilter : taskFilter :=
  fun _ q t w =>
    match AssigneeSection t with
    | None => (w, Fail ("missing assignee: " ++ TaskString t))
    | Some asec =>
        (w, Ok (existsb (fun sec => String.eqb (GID sec) (GID asec))
                        (SectionsAny q)))
    end.

Definition InMyTasksSections (names : list string) (p : periodic) : periodic :=
  mkPeriodic (getWorkspaceClient p) (gates p)
             (queryMutators p ++ [InMyTasksSectionsMutator names])
             (taskFilters p ++ [InMyTasksSectionsFilter]) (taskActors p).

(** The actor that [MoveToMyTasksSection(name)] appends. *)
Definition MoveToMyTasksSectionActor (name : string) : taskActor :=
  fun wc t =>
    utl <- GetMyUserTaskList wc ;;
    sec <- GetSectionByName wc utl name ;;
    AddTaskToSection wc t sec.

Definition MoveToMyTasksSection (name : string) :=
  addActor (MoveToMyTasksSectionActor name).

(** *** Infra: [exec] *)

(** The calls that [exec] makes, recorded in a call log.  The log is ghost
    state: [exec] never reads it; it only serves to state which stages ran
    and in which order.  Stages are named by their index in the rule. *)
Inductive Event : Type :=
| EvGetClient
| EvGate (i : nat)
| EvMutator (i : nat)
| EvSearch
| EvFilter (i : nat) (t : Task)
| EvActor (i : nat) (t : Task).

Definition ExecState : Type := World * list Event.

(** Calling a stage: the call is logged, then the stage runs on the world. *)
Definition call {A : Type} (ev : Event) (f : M World A) : M ExecState A :=
  fun s =>
    let '(w', r) := f (fst s) in ((w', (snd s ++ [ev])%list), r).

Definition callMutator (ev : Event) (mut : World -> World * SearchQuery * option Err)
  : M ExecState SearchQuery :=
  fun s =>
    match mut (fst s) with
    | (w', q', None) => ((w', (snd s ++ [ev])%list), Ok q')
    | (w', _, Some err) => ((w', (snd s ++ [ev])%list), Fail err)
    end.

(** [for _, g := range p.gates]: [Ok false] when a gate said no. *)
Fixpoint runGates (wc : WorkspaceClient) (gs : list gate) (i : nat)
  : M ExecState bool :=
  match gs with
  | [] => ret true
  | g :: rest =>
      ok <- call (EvGate i) (g wc) ;;
      if ok then runGates wc rest (S i) else ret false
  end.

(** [for _, mut := range p.queryMutators] *)
Fixpoint runMutators (wc : WorkspaceClient) (muts : list queryMutator) (i : nat)
    (q : SearchQuery) : M ExecState SearchQuery :=
  match muts with
  | [] => ret q
  | mut :: rest =>
      q' <- callMutator (EvMutator i) (mut wc q) ;;
      runMutators wc rest (S i) q'
  end.

(** [for _, filter := range p.taskFilters], giving [included]. *)
Fixpoint runFilters (wc : WorkspaceClient) (q : SearchQuery) (task : Task)
    (filters : list taskFilter) (i : nat) : M ExecState bool :=
  match filters with
  | [] => ret true
  | filter :: rest =>
      include <- call (EvFilter i task) (filter wc q task) ;;
      if include then runFilters wc q task rest (S i) else ret false
  end.

(** [for _, task := range tasks], giving [filteredTasks]. *)
Fixpoint filterTasks (wc : WorkspaceClient) (q : SearchQuery)
    (filters : list taskFilter) (tasks : list Task) : M ExecState (list Task) :=
  match tasks with
  | [] => ret []
  | task :: rest =>
      included <- runFilters wc q task filters 0 ;;
      filteredTasks <- filterTasks wc q filters rest ;;
      ret (if included then task :: filteredTasks else filteredTasks)
  end.

(** [for _, act := range p.taskActors] for one task. *)
Fixpoint runActors (wc : WorkspaceClient) (task : Task) (acts : list taskActor)
    (i : nat) : M ExecState unit :=
  match acts with
  | [] => ret tt
  | act :: rest =>
      call (EvActor i task) (act wc task) ;;;
      runActors wc task rest (S i)
  end.

(** [for _, task := range filteredTasks] *)
Fixpoint runTasks (wc : WorkspaceClient) (acts : list taskActor)
    (filteredTasks : list Task) : M ExecState unit :=
  match filteredTasks with
  | [] => ret tt
  | task :: rest =>
      runActors wc task acts 0 ;;;
      runTasks wc acts rest
  end.

(** [exec]: [Ok tt] is the [nil] error. *)
Definition exec (p : periodic) (c : Client) : M ExecState unit :=
  wc <- call EvGetClient (getWorkspaceClient p c) ;;
  ok <- runGates wc (gates p) 0 ;;
  if negb ok then ret tt
  else
    q <- runMutators wc (queryMutators p) 0 emptyQuery ;;
    tasks <- call EvSearch (Search wc q) ;;
    filteredTasks <- filterTasks wc q (taskFilters p) tasks ;;
    runTasks wc (taskActors p) filteredTasks.

End Rules.

(** ** Part 5: notions used to state the properties *)

Module HtmlSpec.
Import Html.

(** What the loop of [fixUnlinkedURL] leaves of one line: an anchor around
    the line when it begins with a scheme, the fresh text node otherwise. *)
Definition lineNode (line : string) (next : Node) : Node :=
  if hasURLPrefix line then
    mkNode ElementNode atom_A "a" "" [mkAttribute "" "href" line]
           (newText line nilNode) next
  else newText line next.

(** The run of siblings that replaces the lines of a text node. *)
Fixpoint linkedLines (lines : list string) (next : Node) : Node :=
  match lines with
  | [] => next
  | line :: rest =>
      lineNode line
        (match rest with
         | [] => next
         | _ :: _ => newText newline (linkedLines rest next)
         end)
  end.

(** The nodes of a sibling chain, without their following siblings. *)
Fixpoint siblings (n : Node) : list Node :=
  match n with
  | nilNode => []
  | mkNode ty at_ data ns attr fc sib =>
      mkNode ty at_ data ns attr fc nilNode :: siblings sib
  end.

(** An anchor element whose link target and whose text are both [url]. *)
Definition isAnchorOf (url : string) (n : Node) : Prop :=
  exists at_ ns sib,
    n = mkNode ElementNode at_ "a" ns [mkAttribute "" "href" url]
               (newText url nilNode) sib.

(** Lines 1 and 3 of the example both linked: among the siblings there is
    an anchor for each of them. *)
Definition linesLinked (urls : list string) (result : Node) : Prop :=
  Forall (fun url => exists n, n ∈ siblings result /\ isAnchorOf url n) urls.

(** The text of the line-sensitivity example. *)
Definition line1 : string := "see http://a.example".
Definition line2 : string := "and not-a-url".
Definition line3 : string := "https://b.example".
Definition sampleText : string :=
  line1 ++ newline ++ line2 ++ newline ++ line3.

(** The linkified example: the emptied node, then the three lines with the
    two newline nodes between them, line 3 as an anchor. *)
Definition linkedSample : Node :=
  newText ""
    (newText line1
       (newText newline
          (newText line2
             (newText newline
                (mkNode ElementNode atom_A "a" ""
                        [mkAttribute "" "href" line3]
                        (newText line3 nilNode) nilNode))))).

(** A notes document [<html><head></head><body>...</body></html>] as the
    parser builds it, with the given children of [body]. *)
Definition document (atHtml atHead atBody : Z) (children : Node) : Node :=
  mkNode DocumentNode 0 "" "" []
    (mkNode ElementNode atHtml "html" "" []
       (mkNode ElementNode atHead "head" "" [] nilNode
          (mkNode ElementNode atBody "body" "" [] children nilNode))
       nilNode)
    nilNode.

(** An existing link followed by a bare URL:
    [<a href="http://a.example">first</a>http://b.example]. *)
Definition linkThenURL : Node :=
  mkNode ElementNode atom_A "a" "" [mkAttribute "" "href" "http://a.example"]
         (newText "first" nilNode)
         (newText "http://b.example" nilNode).

End HtmlSpec.

(** Lexicographic order on (hour, minute, second, nanosecond). *)
Definition time_lt (t1 t2 : Time) : Prop :=
  (Hour t1 < Hour t2)%Z
  \/ (Hour t1 = Hour t2
      /\ ((Minute t1 < Minute t2)%Z
          \/ (Minute t1 = Minute t2
              /\ ((Second t1 < Second t2)%Z
                  \/ (Second t1 = Second t2
                      /\ (Nanosecond t1 < Nanosecond t2)%Z))))).

(** Membership of [now] in the half-open window from [s] to [e], wrapping
    past midnight when [e] is before [s]. *)
Definition inHalfOpenWindow (s e now : Time) : Prop :=
  if decide (time_lt e s) then ~ time_lt now s \/ time_lt now e
  else ~ time_lt now s /\ time_lt now e.

(** Membership of [now] in the open window from [s] to [e], wrapping past
    midnight when [e] is before [s]. *)
Definition inOpenWindow (s e now : Time) : Prop :=
  if decide (time_lt e s) then time_lt s now \/ time_lt now e
  else time_lt s now /\ time_lt now e.

Section RulesSpec.
Context `{Collaborators}.

(** The mutators of a singular-valued field. *)
Inductive SingularMutator : Type :=
| MDueInDays (days : Z)
| MDueInAtLeastDays (days : Z)
| MDueInAtMostDays (days : Z)
| MOnlyIncomplete
| MOnlyComplete
| MWithoutDue.

Definition mutatorOf (m : SingularMutator) : queryMutator :=
  match m with
  | MDueInDays days => DueInDaysMutator days
  | MDueInAtLeastDays days => DueInAtLeastDaysMutator days
  | MDueInAtMostDays days => DueInAtMostDaysMutator days
  | MOnlyIncomplete => OnlyIncompleteMutator
  | MOnlyComplete => OnlyCompleteMutator
  | MWithoutDue => WithoutDueMutator
  end.

(** Whether the field that [m] sets is non-nil in [q]. *)
Definition fieldIsSet (m : SingularMutator) (q : SearchQuery) : bool :=
  match m with
  | MDueInDays _ => bool_decide (is_Some (DueOn q))
  | MDueInAtLeastDays _ => bool_decide (is_Some (DueAfter q))
  | MDueInAtMostDays _ => bool_decide (is_Some (DueBefore q))
  | MOnlyIncomplete | MOnlyComplete => bool_decide (is_Some (Completed q))
  | MWithoutDue => bool_decide (is_Some (Due q))
  end.

Definition fieldName (m : SingularMutator) : string :=
  match m with
  | MDueInDays _ => "DueOn"
  | MDueInAtLeastDays _ => "DueAfter"
  | MDueInAtMostDays _ => "DueBefore"
  | MOnlyIncomplete | MOnlyComplete => "Completed"
  | MWithoutDue => "Due"
  end.

(** The calls of the actor loop for one task, from actor index [i] on. *)
Fixpoint callsFrom (i : nat) (acts : list taskActor) (task : Task)
  : list (nat * taskActor * Task) :=
  match acts with
  | [] => []
  | act :: rest => (i, act, task) :: callsFrom (S i) rest task
  end.

(** The calls of the actor phase in task-major order: task after task, and
    for one task actor after actor. *)
Definition actorCalls (acts : list taskActor) (tasks : list Task)
  : list (nat * taskActor * Task) :=
  flat_map (callsFrom 0 acts) tasks.

Definition eventOf (c : nat * taskActor * Task) : Event :=
  EvActor (fst (fst c)) (snd c).

(** [actorRun wc cs s s' r]: the calls of [cs] are made in turn from state
    [s]; the first call that returns an error ends the run with that error,
    and no later call is made; [s'] is the state at the end. *)
Inductive actorRun (wc : WorkspaceClient)
  : list (nat * taskActor * Task) -> ExecState -> ExecState -> Result unit
    -> Prop :=
| runDone (s : ExecState) : actorRun wc [] s s (Ok tt)
| runNext (i : nat) (act : taskActor) (task : Task)
    (cs : list (nat * taskActor * Task)) (s s1 s2 : ExecState)
    (r : Result unit) :
    call (EvActor i task) (act wc task) s = (s1, Ok tt) ->
    actorRun wc cs s1 s2 r ->
    actorRun wc ((i, act, task) :: cs) s s2 r
| runStop (i : nat) (act : taskActor) (task : Task)
    (cs : list (nat * taskActor * Task)) (s s1 : ExecState) (err : Err) :
    call (EvActor i task) (act wc task) s = (s1, Fail err) ->
    actorRun wc ((i, act, task) :: cs) s s1 (Fail err).

(** The window gate read as a half-open interval: for valid arguments the
    gate says yes exactly when [now] is in the window from [start]
    (included) to [end] (excluded). *)
Definition WhenBetweenHalfOpen (tz start end_ : string)
    (wc : WorkspaceClient) (w : World) : Prop :=
  forall loc s e,
    LoadLocation tz = Ok loc -> ParseTime start = Ok s ->
    ParseTime end_ = Ok e ->
    (WhenBetweenGate tz start end_ wc w = (w, Ok true)
     <-> inHalfOpenWindow s e (TimeOfNowIn w loc)).


End RulesSpec.

(** ** Part 6: a small concrete world *)

Module Demo.

Record DemoWorld : Type := mkWorld {
  clock : Time;                       (* the local time of day *)
  moved : list (nat * Section_);      (* tasks added to sections *)
  printed : list nat                  (* tasks printed *)
}.

#[local] Instance demoDomain : Domain := {|
  World := DemoWorld;
  Client := unit;
  WorkspaceClient := unit;
  User := string;
  Project := string;
  Tag := string;
  Task := nat;
  Location := string;
  Date := Z
|}.

Definition digit (c : ascii) : option Z :=
  let n := nat_of_ascii c in
  if (48 <=? n)%nat && (n <=? 57)%nat then Some (Z.of_nat (n - 48)) else None.

Definition twoDigits (a b : ascii) : option Z :=
  match digit a, digit b with
  | Some x, Some y => Some (10 * x + y)%Z
  | _, _ => None
  end.

(** Times of day written [HH:MM:SS]. *)
Definition parseClock (s : string) : Result Time :=
  match s with
  | String h1 (String h2 (String c1 (String m1 (String m2
      (String c2 (String s1 (String s2 EmptyString))))))) =>
      match twoDigits h1 h2, twoDigits m1 m2, twoDigits s1 s2 with
      | Some h, Some m, Some sec =>
          if Ascii.eqb c1 ":"%char && Ascii.eqb c2 ":"%char
             && (h <? 24)%Z && (m <? 60)%Z && (sec <? 60)%Z
          then Ok (mkTime h m sec 0)
          else Fail "parsing time: out of range"
      | _, _, _ => Fail "parsing time: not a digit"
      end
  | _ => Fail "parsing time: wrong length"
  end.

Definition demoSections : list Section_ :=
  [mkSection "101" "Today"; mkSection "102" "Later"; mkSection "103" "Today"].

Definition demoTags : gmap string string :=
  <["urgent" := "tag-1"]> (<["later" := "tag-2"]> ∅).

#[local] Instance demoCollaborators : Collaborators := {|
  LoadLocation tz :=
    if String.eqb tz "UTC" then Ok "UTC" else Fail "unknown time zone";
  ParseTime := parseClock;
  TimeOfNowIn w _ := clock w;
  DateOfNow _ := 20000%Z;
  AddDays d n := (d + n)%Z;
  GetMe _ := ret "me";
  GetMyUserTaskList _ := ret "my tasks";
  GetSections _ _ := ret demoSections;
  GetTagsByName _ := ret demoTags;
  Search _ _ := ret [1; 2; 3]%nat;
  AddTaskToSection _ t sec :=
    fun w => (mkWorld (clock w) (moved w ++ [(t, sec)]) (printed w), Ok tt);
  AssigneeSection _ := None;
  TaskString _ := "task"
|}.

Definition at9 : DemoWorld := mkWorld (mkTime 9 0 0 0) [] [].
Definition at12 : DemoWorld := mkWorld (mkTime 12 0 0 0) [] [].

(** An actor like [PrintTasks]: it records the task and returns [nil]. *)
Definition printActor : taskActor :=
  fun _ t w => (mkWorld (clock w) (moved w) (printed w ++ [t]), Ok tt).

(** An actor that fails on task 2. *)
Definition failOnTwo : taskActor :=
  fun _ t w => if Nat.eqb t 2 then (w, Fail "cannot update task 2")
               else (w, Ok tt).

(** A filter that drops task 3. *)
Definition dropThree : taskFilter :=
  fun _ _ t w => (w, Ok (negb (Nat.eqb t 3))).

Definition yes : gate := fun _ w => (w, Ok true).
Definition no : gate := fun _ w => (w, Ok false).
Definition broken : gate := fun _ w => (w, Fail "bad time zone").

Definition getter : workspaceClientGetter := fun _ w => (w, Ok tt).

(** Tasks 1, 2, 3 are found, 3 is filtered out; both actors run on 1, the
    second actor fails on 2. *)
Definition failingRule : periodic :=
  mkPeriodic getter [yes] [OnlyIncompleteMutator] [dropThree]
             [printActor; failOnTwo].

Definition closedRule : periodic :=
  mkPeriodic getter [yes; no; broken] [OnlyIncompleteMutator] []
             [printActor].

Definition brokenRule : periodic :=
  mkPeriodic getter [yes; broken; no] [OnlyIncompleteMutator] []
             [printActor].

(** The state of [exec failingRule] when the filters have run. *)
Definition afterFilters : ExecState :=
  (at9, [EvGetClient; EvGate 0; EvMutator 0; EvSearch;
         EvFilter 0 1%nat; EvFilter 0 2%nat; EvFilter 0 3%nat]).

End Demo.

(** ** Part 7: further notions about document trees *)

Module HtmlMore.
Import Html.

(** [strings.Join(lines, "\n")] *)
Definition Join (lines : list string) : string := String.concat newline lines.

(** The text of a node and of its following siblings, in document order:
    a text node gives its [Data], any other node the text of its children. *)
Fixpoint textOf (n : Node) : string :=
  match n with
  | nilNode => ""
  | mkNode ty _ data _ _ fc sib =>
      (if NodeType_eqb ty TextNode then data else textOf fc) ++ textOf sib
  end.

(** Whether an [a] element occurs anywhere in the tree. *)
Fixpoint hasLink (n : Node) : bool :=
  match n with
  | nilNode => false
  | mkNode ty _ data _ _ fc sib => isLink ty data || hasLink fc || hasLink sib
  end.

(** Whether some text node outside every [a] subtree has a line that begins
    with a scheme; unlike [hasUnlinkedURL], the siblings that follow a link
    are searched too. *)
Fixpoint bareURL (n : Node) : bool :=
  match n with
  | nilNode => false
  | mkNode ty _ data _ _ fc sib =>
      (if isLink ty data then false
       else nodeHasUnlinkedURL n || bareURL fc)
      || bareURL sib
  end.

(** Every [a] element met outside other [a] subtrees is an auto-link: its
    only attribute is an [href] that begins with a scheme, and its only child
    is a text node holding the same string. *)
Fixpoint autoLinked (n : Node) : Prop :=
  match n with
  | nilNode => True
  | mkNode ty _ data _ attr fc sib =>
      (if isLink ty data then
         exists url, hasURLPrefix url = true
                     /\ attr = [mkAttribute "" "href" url]
                     /\ fc = newText url nilNode
       else autoLinked fc)
      /\ autoLinked sib
  end.

(** [<p>one\nhttp://a.example</p><p>https://b.example</p>] as children of
    a body. *)
Definition twoParagraphs : Node :=
  mkNode ElementNode 0 "p" "" []
    (newText ("one" ++ newline ++ "http://a.example") nilNode)
    (mkNode ElementNode 0 "p" "" []
       (newText "https://b.example" nilNode) nilNode).

End HtmlMore.

(** ** Part 8: the day-of-week gate, and notions about times *)

(** [time.Weekday] *)
Inductive Weekday : Type :=
| Sunday
| Monday
| Tuesday
| Wednesday
| Thursday
| Friday
| Saturday.

Definition Weekday_eqb (a b : Weekday) : bool :=
  match a, b with
  | Sunday, Sunday | Monday, Monday | Tuesday, Tuesday
  | Wednesday, Wednesday | Thursday, Thursday | Friday, Friday
  | Saturday, Saturday => true
  | _, _ => false
  end.

(** [WeekDays] and [WeekendDays] *)
Definition WeekDays : list Weekday :=
  [Monday; Tuesday; Wednesday; Thursday; Friday].
Definition WeekendDays : list Weekday := [Saturday; Sunday].

(** [time.Now().In(loc).Weekday()] *)
Class Calendar `{Collaborators} : Type := {
  WeekdayOfNowIn : World -> Location -> Weekday
}.

(** The gate that [WhenDayOfWeek(tz, days)] appends. *)
Definition WhenDayOfWeekGate `{Calendar} (tz : string) (days : list Weekday)
  : gate :=
  fun _ w =>
    match LoadLocation tz with
    | Fail err => (w, Fail err)
    | Ok loc =>
        let wd := WeekdayOfNowIn w loc in
        (w, Ok (existsb (fun d => Weekday_eqb wd d) days))
    end.

Definition WhenDayOfWeek `{Calendar} (tz : string) (days : list Weekday)
    (p : periodic) : periodic :=
  mkPeriodic (getWorkspaceClient p) (gates p ++ [WhenDayOfWeekGate tz days])
             (queryMutators p) (taskFilters p) (taskActors p).

(** Nanoseconds since midnight. *)
Definition nanosOfDay (t : Time) : Z :=
  (((Hour t * 60 + Minute t) * 60 + Second t) * 1000000000 + Nanosecond t)%Z.

(** A time of day as [civil.ParseTime] and [civil.TimeOf] give it. *)
Definition validTime (t : Time) : Prop :=
  (0 <= Hour t < 24 /\ 0 <= Minute t < 60 /\ 0 <= Second t < 60
   /\ 0 <= Nanosecond t < 1000000000)%Z.

Module DemoCalendar.
Import Demo.

(** In the concrete world it is always Wednesday. *)
#[local] Instance demoCalendar : @Calendar demoDomain demoCollaborators := {|
  WeekdayOfNowIn _ _ := Wednesday
|}.

End DemoCalendar.

(** ** Part 9: notions about sections and results *)

(** The last section of the list that has the given name, if any. *)
Definition lastNamed (name : string) (secs : list Section_) : option Section_ :=
  last (filter (fun s => Name s = name) secs).

(** A result that is not an error. *)
Definition isOk {A : Type} (r : Result A) : Prop :=
  match r with
  | Ok _ => True
  | Fail _ => False
  end.

Section ExecSpec.
Context `{Collaborators}.

Definition isFilterEvent (ev : Event) : Prop :=
  match ev with
  | EvFilter _ _ => True
  | _ => False
  end.

Definition isActorEvent (ev : Event) : Prop :=
  match ev with
  | EvActor _ _ => True
  | _ => False
  end.

(** The call logs that one iteration can add: the client getter, gates in
    declaration order from the first, query mutators in declaration order
    from the first, at most one search, filter calls, actor calls. *)
Definition iterationLog (p : periodic) (evs : list Event) : Prop :=
  exists kg km sr fl ac,
    evs = (EvGetClient :: map EvGate (seq 0 kg) ++ map EvMutator (seq 0 km)
           ++ sr ++ fl ++ ac)%list
    /\ kg <= length (gates p)
    /\ km <= length (queryMutators p)
    /\ (sr = [] \/ sr = [EvSearch])
    /\ Forall isFilterEvent fl
    /\ Forall isActorEvent ac.

(** A filter whose answer is [keep task], whatever the world and the query,
    and that leaves the world alone. *)
Definition answers (wc : WorkspaceClient) (q : SearchQuery)
    (filter : taskFilter) (keep : Task -> bool) : Prop :=
  forall task w, filter wc q task w = (w, Ok (keep task)).

End ExecSpec.

Module DemoExec.
Import Demo.
#[local] Existing Instance demoDomain.
#[local] Existing Instance demoCollaborators.

(** A mutator that always fails. *)
Definition badMutator : queryMutator :=
  fun _ q w => (w, q, Some "Tag 'gone' not found").

(** A filter that fails on task 2. *)
Definition failOnTwoFilter : taskFilter :=
  fun _ _ t w => if Nat.eqb t 2 then (w, Fail "missing assignee: task")
                 else (w, Ok true).

(** A filter that keeps every task. *)
Definition keepAll : taskFilter := fun _ _ _ w => (w, Ok true).

Definition badQueryRule : periodic :=
  mkPeriodic getter [yes] [OnlyIncompleteMutator; badMutator] [dropThree]
             [printActor].

Definition badFilterRule : periodic :=
  mkPeriodic getter [yes] [OnlyIncompleteMutator] [failOnTwoFilter]
             [printActor].

End DemoExec.

(** ** Part 10: the paginated listings of client/section.go *)

(** What section.go uses of the rest of the client package: the [GID] of a
    project, and [wc.client.get] decoding a page of sections or of tasks.
    The [url.Values] of a listing hold at most the key [offset]: [None] is
    the empty [url.Values{}], [Some o] the values after
    [values.Set("offset", o)].  A page is its [Data] and the [Offset] of its
    [NextPage], if it has one. *)
Class Transport `{Domain} : Type := {
  ProjectGID : Project -> string;
  getSectionsPage :
    WorkspaceClient -> string -> option string
    -> M World (list Section_ * option string);
  getTasksPage :
    WorkspaceClient -> string -> option string
    -> M World (list Task * option string)
}.

Module ClientImpl.
Section Listings.
Context `{Transport}.

(** The loop that [GetSections] and [GetTasksFromSection] share word for
    word: fetch a page, append its [Data] to [ret], stop when it has no
    [NextPage], otherwise ask again with the offset it names.  The loop has
    no bound of its own: [None] is a run that [fuel] requests did not end. *)
Fixpoint fetchAll {A : Type} (fuel : nat)
    (get : option string -> M World (list A * option string))
    (values : option string) (ret : list A) (w : World)
  : option (World * Result (list A)) :=
  match fuel with
  | O => None
  | S fuel' =>
      match get values w with
      | (w', Fail err) => Some (w', Fail err)
      | (w', Ok (data, nextPage)) =>
          match nextPage with
          | None => Some (w', Ok (ret ++ data)%list)
          | Some offset => fetchAll fuel' get (Some offset) (ret ++ data)%list w'
          end
      end
  end.

(** [GetSections] *)
Definition GetSections (fuel : nat) (wc : WorkspaceClient) (project : Project)
    (w : World) : option (World * Result (list Section_)) :=
  fetchAll fuel
           (getSectionsPage wc ("projects/" ++ ProjectGID project ++ "/sections"))
           None [] w.

(** [GetTasksFromSection] *)
Definition GetTasksFromSection (fuel : nat) (wc : WorkspaceClient)
    (section : Section_) (w : World) : option (World * Result (list Task)) :=
  fetchAll fuel
           (getTasksPage wc ("sections/" ++ GID section ++ "/tasks"))
           None [] w.

(** [served get values w pages w' r]: asked from [values] on, the remote
    serves the pages [pages] one after the other, each request carrying the
    offset that the page before named, and then either the last page had no
    [NextPage] ([r] is [Ok tt]) or the next request failed with the error
    in [r]. *)
Inductive served {A : Type}
    (get : option string -> M World (list A * option string))
  : option string -> World -> list (list A) -> World -> Result unit -> Prop :=
| servedLast (values : option string) (w w' : World) (data : list A) :
    get values w = (w', Ok (data, None)) ->
    served get values w [data] w' (Ok tt)
| servedMore (values : option string) (w w1 w' : World) (data : list A)
    (offset : string) (pages : list (list A)) (r : Result unit) :
    get values w = (w1, Ok (data, Some offset)) ->
    served get (Some offset) w1 pages w' r ->
    served get values w (data :: pages) w' r
| servedFail (values : option string) (w w' : World) (err : Err) :
    get values w = (w', Fail err) ->
    served get values w [] w' (Fail err).

End Listings.
End ClientImpl.

Module DemoTransport.
Import Demo.

(** A remote with three sections on two pages, and a listing of tasks whose
    every page names a next page. *)
#[local] Instance demoTransport : @Transport demoDomain :=
  @Build_Transport demoDomain
    (fun p : string => p)
    (fun _ _ values w =>
       match values with
       | None => (w, Ok ([mkSection "101" "Today"; mkSection "102" "Later"],
                         Some "page2"))
       | Some _ => (w, Ok ([mkSection "103" "Today"], None))
       end)
    (fun _ _ _ w => (w, Ok ([1%nat], Some "again"))).

End DemoTransport.

(** ** Part 11: the stages that work on the notes of a task *)

(** [strings.TrimPrefix(s, prefix)] *)
Fixpoint cutPrefix (prefix s : string) : option string :=
  match prefix, s with
  | EmptyString, _ => Some s
  | String a prefix', String b s' =>
      if Ascii.eqb a b then cutPrefix prefix' s' else None
  | String _ _, EmptyString => None
  end.

Definition TrimPrefix (s prefix : string) : string :=
  match cutPrefix prefix s with
  | Some rest => rest
  | None => s
  end.

(** [strings.TrimSuffix(s, suffix)] *)
Fixpoint cutSuffix (s suffix : string) : option string :=
  if String.eqb s suffix then Some ""
  else match s with
       | EmptyString => None
       | String c rest => option_map (String c) (cutSuffix rest suffix)
       end.

Definition TrimSuffix (s suffix : string) : string :=
  match cutSuffix s suffix with
  | Some rest => rest
  | None => s
  end.

(** What the stages use of a task and of the libraries: its [GID]; the tree
    that [t.ParsedHTMLNotes] points to, which lives in the world and is
    updated in place; [html.Render] into a buffer; and [wc.UpdateTask] of
    [&client.Task{GID: gid, HTMLNotes: notes}]. *)
Class Notes `{Domain} : Type := {
  TaskID : Task -> string;
  ParsedHTMLNotes : World -> Task -> Html.Node;
  setParsedHTMLNotes : Task -> Html.Node -> World -> World;
  RenderNode : Html.Node -> Result string;
  UpdateTask : WorkspaceClient -> string -> string -> M World unit
}.

Section NotesStages.
Context `{Notes}.

(** The filter that [WithUnlinkedURL] appends. *)
Definition WithUnlinkedURLFilter : taskFilter :=
  fun _ _ t w => (w, Ok (Html.hasUnlinkedURL (ParsedHTMLNotes w t))).

(** The actor that [FixUnlinkedURL] appends. *)
Definition FixUnlinkedURLActor : taskActor :=
  fun wc t w =>
    let w1 :=
      setParsedHTMLNotes t (Html.fixUnlinkedURL (ParsedHTMLNotes w t)) w in
    match RenderNode (ParsedHTMLNotes w1 t) with
    | Fail err => (w1, Fail err)
    | Ok notes =>
        UpdateTask wc (TaskID t)
          (TrimSuffix (TrimPrefix notes "<html><head></head>") "</html>") w1
    end.

End NotesStages.

Section SectionFilterSpec.
Context `{Collaborators}.

(** Whether the assignee section of the task has the [GID] of one of the
    sections asked for in the query. *)
Definition inRequestedSections (q : SearchQuery) (t : Task) : bool :=
  match AssigneeSection t with
  | Some asec =>
      existsb (fun sec => String.eqb (GID sec) (GID asec)) (SectionsAny q)
  | None => false
  end.

End SectionFilterSpec.

Module DemoNotes.
Import Html.

(** A world that is a store of notes trees by task and the list of updates
    sent; a task is its [GID]. *)
#[local] Instance notesDomain : Domain := {|
  World := gmap string Node * list (string * string);
  Client := unit;
  WorkspaceClient := unit;
  User := unit;
  Project := unit;
  Tag := unit;
  Task := string;
  Location := unit;
  Date := unit
|}.

#[local] Instance demoNotes : @Notes notesDomain :=
  @Build_Notes notesDomain
    (fun t : string => t)
    (fun (w : gmap string Node * list (string * string)) (t : string) =>
       default nilNode (fst w !! t))
    (fun (t : string) (n : Node)
         (w : gmap string Node * list (string * string)) =>
       (<[t := n]> (fst w), snd w))
    (fun n => match Render.renderSiblings n with
              | Some s => Ok s
              | None => Fail "html: cannot render"
              end)
    (fun _ (gid notes : string)
         (w : gmap string Node * list (string * string)) =>
       ((fst w, (snd w ++ [(gid, notes)])%list), Ok tt)).

(** One task, whose notes are the bare URL [http://a.example]. *)
Definition oneTask : gmap string Node * list (string * string) :=
  (<["1201" := HtmlSpec.document 0 0 0 (newText "http://a.example" nilNode)]> ∅,
   []).

Definition linkedBody : string :=
  "<body><a href=" ++ Render.quote ++ "http://a.example" ++ Render.quote
  ++ ">http://a.example</a></body>".

End DemoNotes.

(** * Properties *)

(** ** The linkifier *)

Module HtmlFacts.
Import Html HtmlSpec.

(** A line produced by [Split] holds no newline: splitting it again gives
    the line itself. *)
Lemma Split_lines (s : string) : Forall (fun l => Split l = [l]) (Split s).
Proof.
  induction s as [|c rest IH]; simpl.
  - constructor; [reflexivity|constructor].
  - destruct (Ascii.eqb c "010") eqn:Hc.
    + constructor; [reflexivity|exact IH].
    + destruct (Split rest) as [|line lines] eqn:Hs.
      * constructor; [|constructor]. simpl. rewrite Hc. reflexivity.
      * inversion IH as [|? ? Hline Hrest]; subst.
        constructor; [|exact Hrest].
        simpl. rewrite Hc, Hline. reflexivity.
Qed.

Lemma nodeHasUnlinkedURL_eq ty a d ns attr fc sib :
  nodeHasUnlinkedURL (mkNode ty a d ns attr fc sib)
  = NodeType_eqb ty TextNode && existsb hasURLPrefix (Split d).
Proof. simpl. destruct (NodeType_eqb ty TextNode); reflexivity. Qed.

Lemma linkify_line (line : string) (next : Node) :
  Split line = [line] -> linkify (newText line next) = lineNode line next.
Proof.
  intros Hl. unfold linkify, lineNode, newText.
  rewrite nodeHasUnlinkedURL_eq, Hl. simpl.
  rewrite orb_false_r. destruct (hasURLPrefix line); reflexivity.
Qed.

Lemma linkLoop_lineNode (k : nat) (line : string) (next : Node) :
  match lineNode line next with
  | nilNode => nilNode
  | mkNode ty a d ns attr fc nx => mkNode ty a d ns attr fc (linkLoop k nx)
  end = lineNode line (linkLoop k next).
Proof. unfold lineNode, newText. destruct (hasURLPrefix line); reflexivity. Qed.

(** The conversion loop, run over the nodes that [splitTextNodes] created. *)
Lemma linkLoop_lines (lines : list string) (next : Node) :
  Forall (fun l => Split l = [l]) lines ->
  linkLoop (length lines + (length lines - 1)) (insertLines lines next)
  = linkedLines lines next.
Proof.
  induction lines as [|line rest IH]; intros Hall; [reflexivity|].
  inversion Hall as [|? ? Hline Hrest]; subst.
  destruct rest as [|line2 rest2].
  - simpl. rewrite (linkify_line line next Hline).
    apply (linkLoop_lineNode 0 line next).
  - replace (length (line :: line2 :: rest2)
             + (length (line :: line2 :: rest2) - 1))%nat
      with (S (S (length (line2 :: rest2) + (length (line2 :: rest2) - 1))))
      by (simpl; lia).
    change (insertLines (line :: line2 :: rest2) next)
      with (newText line (newText newline (insertLines (line2 :: rest2) next))).
    change (linkedLines (line :: line2 :: rest2) next)
      with (lineNode line (newText newline (linkedLines (line2 :: rest2) next))).
    rewrite <- (IH Hrest).
    set (k := (length (line2 :: rest2) + (length (line2 :: rest2) - 1))%nat).
    set (chain := insertLines (line2 :: rest2) next).
    change (linkLoop (S (S k)) (newText line (newText newline chain)))
      with (match linkify (newText line (newText newline chain)) with
            | nilNode => nilNode
            | mkNode ty a d ns attr fc nx =>
                mkNode ty a d ns attr fc (linkLoop (S k) nx)
            end).
    rewrite (linkify_line line _ Hline), linkLoop_lineNode.
    reflexivity.
Qed.

(** One step of [fixUnlinkedURL], with its two loops in closed form. *)
Lemma fixUnlinkedURL_step ty a d ns attr fc sib :
  fixUnlinkedURL (mkNode ty a d ns attr fc sib)
  = if isLink ty d then mkNode ty a d ns attr fc sib
    else if NodeType_eqb ty TextNode && existsb hasURLPrefix (Split d) then
      mkNode ty a "" ns attr (fixUnlinkedURL fc)
             (linkedLines (Split d) (fixUnlinkedURL sib))
    else mkNode ty a d ns attr (fixUnlinkedURL fc) (fixUnlinkedURL sib).
Proof.
  change (fixUnlinkedURL (mkNode ty a d ns attr fc sib))
    with (if isLink ty d then mkNode ty a d ns attr fc sib
          else
            if nodeHasUnlinkedURL
                 (mkNode ty a d ns attr (fixUnlinkedURL fc) (fixUnlinkedURL sib))
            then linkLoop (runLength (Split d))
                   (splitTextNodes
                      (mkNode ty a d ns attr (fixUnlinkedURL fc)
                              (fixUnlinkedURL sib)))
            else mkNode ty a d ns attr (fixUnlinkedURL fc) (fixUnlinkedURL sib)).
  destruct (isLink ty d); [reflexivity|].
  rewrite nodeHasUnlinkedURL_eq.
  destruct (NodeType_eqb ty TextNode && existsb hasURLPrefix (Split d)) eqn:Hb;
    [|reflexivity].
  unfold splitTextNodes, runLength.
  change (linkLoop (1 + (length (Split d) + (length (Split d) - 1))) ?n)
    with (match linkify n with
          | nilNode => nilNode
          | mkNode ty' a' d' ns' attr' fc' nx =>
              mkNode ty' a' d' ns' attr' fc'
                     (linkLoop (length (Split d) + (length (Split d) - 1)) nx)
          end).
  unfold linkify. rewrite nodeHasUnlinkedURL_eq.
  replace (NodeType_eqb ty TextNode && existsb hasURLPrefix (Split ""))
    with false by (destruct (NodeType_eqb ty TextNode); reflexivity).
  rewrite (linkLoop_lines _ _ (Split_lines d)). reflexivity.
Qed.

Lemma hasUnlinkedURL_step ty a d ns attr fc sib :
  hasUnlinkedURL (mkNode ty a d ns attr fc sib)
  = if isLink ty d then false
    else (NodeType_eqb ty TextNode && existsb hasURLPrefix (Split d))
         || hasUnlinkedURL fc || hasUnlinkedURL sib.
Proof.
  change (hasUnlinkedURL (mkNode ty a d ns attr fc sib))
    with (if isLink ty d then false
          else if nodeHasUnlinkedURL (mkNode ty a d ns attr fc sib) then true
          else if hasUnlinkedURL fc then true
          else if hasUnlinkedURL sib then true else false).
  rewrite nodeHasUnlinkedURL_eq.
  destruct (isLink ty d), (NodeType_eqb ty TextNode && existsb hasURLPrefix (Split d)),
    (hasUnlinkedURL fc), (hasUnlinkedURL sib); reflexivity.
Qed.

Lemma hasUnlinkedURL_newText (line : string) (next : Node) :
  Split line = [line] -> hasURLPrefix line = false ->
  hasUnlinkedURL (newText line next) = hasUnlinkedURL next.
Proof.
  intros Hl Hp. unfold newText. rewrite hasUnlinkedURL_step, Hl. simpl.
  rewrite Hp. reflexivity.
Qed.

Lemma hasUnlinkedURL_newline (next : Node) :
  hasUnlinkedURL (newText newline next) = hasUnlinkedURL next.
Proof. unfold newText. rewrite hasUnlinkedURL_step. reflexivity. Qed.

Lemma hasUnlinkedURL_lineNode (line : string) (next : Node) :
  Split line = [line] -> hasUnlinkedURL next = false ->
  hasUnlinkedURL (lineNode line next) = false.
Proof.
  intros Hl Hn. unfold lineNode. destruct (hasURLPrefix line) eqn:Hp.
  - reflexivity.
  - rewrite (hasUnlinkedURL_newText _ _ Hl Hp). exact Hn.
Qed.

(** Nothing is left to link in the run that replaces a text node. *)
Lemma hasUnlinkedURL_linkedLines (lines : list string) (next : Node) :
  Forall (fun l => Split l = [l]) lines ->
  hasUnlinkedURL next = false ->
  hasUnlinkedURL (linkedLines lines next) = false.
Proof.
  intros Hall Hn. induction Hall as [|line rest Hline Hrest IH]; [exact Hn|].
  destruct rest as [|line2 rest2].
  - apply hasUnlinkedURL_lineNode; assumption.
  - change (linkedLines (line :: line2 :: rest2) next)
      with (lineNode line (newText newline (linkedLines (line2 :: rest2) next))).
    apply hasUnlinkedURL_lineNode; [exact Hline|].
    rewrite hasUnlinkedURL_newline. exact IH.
Qed.

(** After the linkifier has run, the detector finds nothing. *)
Lemma hasUnlinkedURL_fixUnlinkedURL (node : Node) :
  hasUnlinkedURL (fixUnlinkedURL node) = false.
Proof.
  induction node as [|ty a d ns attr fc IHfc sib IHsib]; [reflexivity|].
  rewrite fixUnlinkedURL_step.
  destruct (isLink ty d) eqn:Hl.
  - rewrite hasUnlinkedURL_step, Hl. reflexivity.
  - destruct (NodeType_eqb ty TextNode && existsb hasURLPrefix (Split d)) eqn:Hb.
    + rewrite hasUnlinkedURL_step.
      replace (isLink ty "") with false
        by (unfold isLink; destruct (NodeType_eqb ty ElementNode); reflexivity).
      replace (NodeType_eqb ty TextNode && existsb hasURLPrefix (Split ""))
        with false by (destruct (NodeType_eqb ty TextNode); reflexivity).
      rewrite IHfc.
      rewrite (hasUnlinkedURL_linkedLines _ _ (Split_lines d) IHsib).
      reflexivity.
    + rewrite hasUnlinkedURL_step, Hl, Hb, IHfc, IHsib. reflexivity.
Qed.

(** Where the detector finds nothing, the linkifier changes nothing. *)
Lemma fixUnlinkedURL_unchanged (node : Node) :
  hasUnlinkedURL node = false -> fixUnlinkedURL node = node.
Proof.
  induction node as [|ty a d ns attr fc IHfc sib IHsib]; [reflexivity|].
  rewrite hasUnlinkedURL_step, fixUnlinkedURL_step.
  destruct (isLink ty d); [reflexivity|].
  intros Hh.
  apply orb_false_elim in Hh as [Hh Hsib].
  apply orb_false_elim in Hh as [Hb Hfc].
  rewrite Hb, (IHfc Hfc), (IHsib Hsib). reflexivity.
Qed.

(** Where the detector finds something, the linkifier changes a node. *)
Lemma fixUnlinkedURL_changed (node : Node) :
  hasUnlinkedURL node = true -> fixUnlinkedURL node <> node.
Proof.
  induction node as [|ty a d ns attr fc IHfc sib IHsib]; [discriminate|].
  rewrite hasUnlinkedURL_step, fixUnlinkedURL_step.
  destruct (isLink ty d); [discriminate|].
  destruct (NodeType_eqb ty TextNode && existsb hasURLPrefix (Split d)) eqn:Hb.
  - intros _ Heq. injection Heq as Hd _ _. subst d.
    destruct (NodeType_eqb ty TextNode); discriminate.
  - simpl. intros Hh Heq. injection Heq as Hfc Hsib.
    apply orb_true_iff in Hh as [Hh|Hh].
    + exact (IHfc Hh Hfc).
    + exact (IHsib Hh Hsib).
Qed.

(** C4: [hasUnlinkedURL] returns true exactly on the trees that
    [fixUnlinkedURL] changes: the detector and the linkifier agree on which
    trees hold bare-URL text to convert. *)
Theorem hasUnlinkedURL_iff_fixUnlinkedURL_changes (node : Node) :
  hasUnlinkedURL node = true <-> fixUnlinkedURL node <> node.
Proof.
  split.
  - apply fixUnlinkedURL_changed.
  - intros Hne. destruct (hasUnlinkedURL node) eqn:Hh; [reflexivity|].
    exfalso. apply Hne. apply fixUnlinkedURL_unchanged. exact Hh.
Qed.

(** C5: [fixUnlinkedURL] is idempotent: the second pass finds every
    converted line inside an anchor and leaves the tree as the first pass
    left it. *)
Theorem fixUnlinkedURL_idempotent (node : Node) :
  fixUnlinkedURL (fixUnlinkedURL node) = fixUnlinkedURL node.
Proof.
  apply fixUnlinkedURL_unchanged, hasUnlinkedURL_fixUnlinkedURL.
Qed.

(** C1: at an existing anchor [fixUnlinkedURL] returns at once, so the
    siblings that follow the anchor are not visited: a sibling chain that
    begins with a link is returned as it is.  In the notes document
    [<a href="http://a.example">first</a>http://b.example] the text node after
    the link is bare-URL text outside every anchor subtree, and it is left
    unconverted; the detector misses it in the same way. *)
Theorem fixUnlinkedURL_skips_siblings_of_link :
  (forall a ns attr fc sib,
      fixUnlinkedURL (mkNode ElementNode a "a" ns attr fc sib)
      = mkNode ElementNode a "a" ns attr fc sib)
  /\ (forall atHtml atHead atBody,
        fixUnlinkedURL (document atHtml atHead atBody linkThenURL)
        = document atHtml atHead atBody linkThenURL
        /\ hasUnlinkedURL (document atHtml atHead atBody linkThenURL) = false)
  /\ nodeHasUnlinkedURL (newText "http://b.example" nilNode) = true
  /\ fixUnlinkedURL (newText "http://b.example" nilNode)
     = newText "" (lineNode "http://b.example" nilNode).
Proof.
  split; [|split; [|split]].
  - intros. rewrite fixUnlinkedURL_step. reflexivity.
  - intros. split; reflexivity.
  - reflexivity.
  - reflexivity.
Qed.

(** C6, as stated, fails: line 1 of the example does not begin with a
    scheme, so no anchor for it is among the resulting siblings. *)
Lemma line1_not_linked :
  ~ linesLinked [line1; line3] (fixUnlinkedURL (newText sampleText nilNode)).
Proof.
  intros Hall. inversion Hall as [|? ? [n [Hin Hanchor]] _]; subst.
  destruct Hanchor as (a & ns & sib & ->).
  vm_compute in Hin.
  repeat (apply elem_of_cons in Hin as [Hin|Hin]; [discriminate Hin|]).
  inversion Hin.
Qed.

(** C6, amended: the example text node is split into the emptied node, three
    line nodes and the two newline nodes between them; only line 3, the one
    line that begins with a scheme, becomes an anchor whose link target is
    its own text; lines 1 and 2 stay plain text; and the serialized notes are
    the original text with the anchor tags around line 3. *)
Theorem fixUnlinkedURL_line_sensitive :
  fixUnlinkedURL (newText sampleText nilNode) = linkedSample
  /\ linesLinked [line3] linkedSample
  /\ (forall atHtml atHead atBody,
        fixUnlinkedURL (document atHtml atHead atBody (newText sampleText nilNode))
        = document atHtml atHead atBody linkedSample)
  /\ Render.renderSiblings linkedSample
     = Some (line1 ++ newline ++ line2 ++ newline
             ++ "<a href=" ++ Render.quote ++ line3 ++ Render.quote ++ ">"
             ++ line3 ++ "</a>").
Proof.
  split; [|split; [|split]].
  - reflexivity.
  - constructor; [|constructor].
    eexists. split.
    + unfold linkedSample. simpl siblings.
      rewrite !elem_of_cons. do 5 right. left. reflexivity.
    + exists atom_A, "", nilNode. reflexivity.
  - intros. reflexivity.
  - reflexivity.
Qed.

End HtmlFacts.

(** ** Gates and query mutators *)

Section MutatorFacts.
Context `{Collaborators}.

(** [timeBefore] decides the lexicographic order. *)
Lemma timeBefore_lt (t1 t2 : Time) : timeBefore t1 t2 = true <-> time_lt t1 t2.
Proof.
  unfold timeBefore, time_lt.
  rewrite !orb_true_iff, !andb_true_iff, !Z.ltb_lt, !Z.eqb_eq. lia.
Qed.

(** C2, amended: for a valid time zone and valid times of day the window
    gate succeeds, and it says yes exactly when the local time of day is
    strictly after [start] and strictly before [end] in the lexicographic
    order on (hour, minute, second, nanosecond); when [end] is before [start]
    the window wraps past midnight, and the gate says yes exactly when the
    time is strictly after [start] or strictly before [end]. *)
Theorem WhenBetween_open_window (tz start end_ : string) (loc : Location)
    (s e : Time) (wc : WorkspaceClient) (w : World) :
  LoadLocation tz = Ok loc ->
  ParseTime start = Ok s ->
  ParseTime end_ = Ok e ->
  exists b, WhenBetweenGate tz start end_ wc w = (w, Ok b)
            /\ (b = true <-> inOpenWindow s e (TimeOfNowIn w loc)).
Proof.
  intros Hloc Hs He. unfold WhenBetweenGate, inOpenWindow.
  rewrite Hloc, Hs, He.
  destruct (timeBefore e s) eqn:Hes; eexists; (split; [reflexivity|]).
  - apply timeBefore_lt in Hes.
    destruct (decide (time_lt e s)) as [_|Hn]; [|contradiction].
    rewrite orb_true_iff, !timeBefore_lt. reflexivity.
  - destruct (decide (time_lt e s)) as [Hlt|_].
    + apply timeBefore_lt in Hlt. congruence.
    + rewrite andb_true_iff, !timeBefore_lt. reflexivity.
Qed.




(** C9: a mutator of a singular-valued field ([DueInDays],
    [DueInAtLeastDays], [DueInAtMostDays], [OnlyIncomplete], [OnlyComplete],
    [WithoutDue]) fails with "Multiple clauses set <field>" when its field
    is already set, and leaves the query, with the value set before, as it
    was.  So after any of them has run, a mutator of the same field fails:
    in particular [OnlyIncomplete] applied twice fails the second time. *)
Theorem singular_field_set_once (m : SingularMutator)
    (wc : WorkspaceClient) (q : SearchQuery) (w : World) :
  (fieldIsSet m q = true ->
   mutatorOf m wc q w = (w, q, Some ("Multiple clauses set " ++ fieldName m)))
  /\ (forall m', fieldName m' = fieldName m ->
        let r := mutatorOf m wc q w in
        mutatorOf m' wc (snd (fst r)) (fst (fst r))
        = (fst (fst r), snd (fst r),
           Some ("Multiple clauses set " ++ fieldName m'))).
Proof.
  split.
  - destruct m; simpl; intros Hset; apply bool_decide_eq_true in Hset;
      destruct Hset as [v Hv];
      unfold DueInDaysMutator, DueInAtLeastDaysMutator, DueInAtMostDaysMutator,
        OnlyIncompleteMutator, OnlyCompleteMutator, WithoutDueMutator;
      rewrite Hv; reflexivity.
  - intros m' Hf.
    destruct m, m'; simpl in Hf; try discriminate Hf; simpl;
      unfold DueInDaysMutator, DueInAtLeastDaysMutator, DueInAtMostDaysMutator,
        OnlyIncompleteMutator, OnlyCompleteMutator, WithoutDueMutator;
      repeat match goal with
             | |- context [match ?f q with Some _ => _ | None => _ end] =>
                 let E := fresh "Hq" in destruct (f q) eqn:E; simpl; rewrite ?E
             end;
      reflexivity.
Qed.

Lemma foldl_insert_keeps (secs : list Section_) (m : gmap string Section_)
    (sec : Section_) :
  m !! Name sec = Some sec ->
  Forall (fun s => Name s <> Name sec) secs ->
  foldl (fun secsByName s => <[Name s := s]> secsByName) m secs !! Name sec
  = Some sec.
Proof.
  intros Hm Hall. revert m Hm.
  induction Hall as [|s secs Hs _ IH]; intros m Hm; simpl; [exact Hm|].
  apply IH. rewrite lookup_insert_ne by exact Hs. exact Hm.
Qed.

(** C10: when the section list of a project holds a section [sec] and no
    later section of the list has its name (so [sec] is the last of that
    name, whatever precedes it), [GetSectionsByName] succeeds with a map that
    binds the name to [sec]; [GetSectionByName] returns [sec];
    [MoveToMyTasksSection] adds the task to [sec]; and [InMyTasksSections]
    puts [sec] into [SectionsAny].  Earlier sections of the same name raise
    no error and are never the result. *)
Theorem sections_by_name_last_wins (wc : WorkspaceClient) (project : Project)
    (w w' : World) (secs l1 l2 : list Section_) (sec : Section_) :
  GetSections wc project w = (w', Ok secs) ->
  secs = (l1 ++ sec :: l2)%list ->
  Forall (fun s => Name s <> Name sec) l2 ->
  (exists m, GetSectionsByName wc project w = (w', Ok m)
             /\ m !! Name sec = Some sec)
  /\ GetSectionByName wc project (Name sec) w = (w', Ok sec)
  /\ (forall t w0,
        GetMyUserTaskList wc w0 = (w, Ok project) ->
        MoveToMyTasksSectionActor (Name sec) wc t w0
        = AddTaskToSection wc t sec w')
  /\ (forall q u w0 w1,
        GetMe wc w0 = (w1, Ok u) ->
        GetMyUserTaskList wc w1 = (w, Ok project) ->
        InMyTasksSectionsMutator [Name sec] wc q w0
        = (w', setSectionsAny (SectionsAny q ++ [sec])
                 (setAssigneeAny (AssigneeAny q ++ [u]) q), None)).
Proof.
  intros Hget -> Hlast.
  assert (Hmap : foldl (fun secsByName s => <[Name s := s]> secsByName)
                       (∅ : gmap string Section_)
                       (l1 ++ sec :: l2) !! Name sec = Some sec).
  { rewrite foldl_app. simpl. apply foldl_insert_keeps; [|exact Hlast].
    apply lookup_insert_eq. }
  assert (Hby : GetSectionsByName wc project w
                = (w', Ok (foldl (fun secsByName s => <[Name s := s]> secsByName)
                                 ∅ (l1 ++ sec :: l2)))).
  { unfold GetSectionsByName, bind. rewrite Hget. reflexivity. }
  assert (Hone : GetSectionByName wc project (Name sec) w = (w', Ok sec)).
  { unfold GetSectionByName, bind at 1. rewrite Hby, Hmap. reflexivity. }
  split; [eexists; split; [exact Hby|exact Hmap]|].
  split; [exact Hone|]. split.
  - intros t w0 Hutl. unfold MoveToMyTasksSectionActor, bind.
    rewrite Hutl, Hone. reflexivity.
  - intros q u w0 w1 Hme Hutl. unfold InMyTasksSectionsMutator.
    rewrite Hme, Hutl, Hby. simpl. rewrite Hmap. reflexivity.
Qed.

End MutatorFacts.

(** ** The executor *)

Section ExecFacts.
Context `{Collaborators}.

Lemma call_inv {A : Type} (ev : Event) (f : M World A) (s s1 : ExecState)
    (r : Result A) :
  call ev f s = (s1, r) ->
  f (fst s) = (fst s1, r) /\ snd s1 = (snd s ++ [ev])%list.
Proof.
  unfold call. destruct (f (fst s)) as [w' r']. intros Heq.
  injection Heq as <- <-. split; reflexivity.
Qed.

Lemma runGates_true_app (wc : WorkspaceClient) (gs1 gs2 : list gate) (i : nat)
    (s s1 : ExecState) :
  runGates wc gs1 i s = (s1, Ok true) ->
  runGates wc (gs1 ++ gs2) i s = runGates wc gs2 (i + length gs1) s1
  /\ snd s1 = (snd s ++ map EvGate (seq i (length gs1)))%list.
Proof.
  revert i s. induction gs1 as [|g gs1 IH]; intros i s Hrun.
  - injection Hrun as <-. simpl. rewrite Nat.add_0_r, app_nil_r. split; reflexivity.
  - simpl in Hrun |- *. unfold bind in Hrun |- *.
    destruct (call (EvGate i) (g wc) s) as [s' [[|]|err]] eqn:Hcall;
      try discriminate Hrun.
    destruct (IH (S i) s' Hrun) as [Happ Hlog].
    apply call_inv in Hcall as [_ Hlog'].
    rewrite Happ, Hlog, Hlog', <- app_assoc, Nat.add_succ_r.
    split; reflexivity.
Qed.

(** C8: the gates run in declaration order, and the first gate that does
    not say yes ends the iteration: when the gates before [g] all said yes
    and [g] says no, [exec] returns [nil]; when [g] returns an error, [exec]
    returns that error.  In both cases the world is as [g] left it and the
    calls made are the client getter and the gates up to [g]: no later gate,
    no query mutator, no search, no filter and no actor has run. *)
Theorem gates_short_circuit (p : periodic) (c : Client) (s0 s1 s2 : ExecState)
    (wc : WorkspaceClient) (gs1 gs2 : list gate) (g : gate) (w3 : World)
    (r : Result bool) :
  call EvGetClient (getWorkspaceClient p c) s0 = (s1, Ok wc) ->
  gates p = (gs1 ++ g :: gs2)%list ->
  runGates wc gs1 0 s1 = (s2, Ok true) ->
  g wc (fst s2) = (w3, r) ->
  r <> Ok true ->
  exec p c s0
  = ((w3, (snd s0 ++ EvGetClient :: map EvGate (seq 0 (S (length gs1))))%list),
     match r with
     | Fail err => Fail err
     | Ok _ => Ok tt
     end).
Proof.
  intros Hget Hgates Hpre Hg Hr.
  unfold exec, bind at 1. rewrite Hget.
  unfold bind at 1. rewrite Hgates.
  destruct (runGates_true_app wc gs1 (g :: gs2) 0 s1 s2 Hpre) as [-> Hlog].
  apply call_inv in Hget as [_ Hlog0].
  simpl runGates. unfold bind at 1, call. rewrite Hg.
  rewrite Hlog, Hlog0, seq_S, map_app, <- !app_assoc.
  destruct r as [[|]|err]; [contradiction|reflexivity|reflexivity].
Qed.

Lemma filterTasks_sublist (wc : WorkspaceClient) (q : SearchQuery)
    (filters : list taskFilter) (tasks filtered : list Task)
    (s s' : ExecState) :
  filterTasks wc q filters tasks s = (s', Ok filtered) ->
  sublist filtered tasks.
Proof.
  revert s s' filtered.
  induction tasks as [|task tasks IH]; intros s s' filtered.
  - intros Heq. injection Heq as _ <-. constructor.
  - simpl. unfold bind.
    destruct (runFilters wc q task filters 0 s) as [s1 [included|err]];
      [|discriminate].
    destruct (filterTasks wc q filters tasks s1) as [s2 [rest|err]] eqn:Hrest;
      [|discriminate].
    intros Heq. injection Heq as _ <-.
    specialize (IH s1 s2 rest Hrest).
    destruct included; [apply sublist_skip|apply sublist_cons]; exact IH.
Qed.

Lemma actorRun_app_ok (wc : WorkspaceClient)
    (cs1 cs2 : list (nat * taskActor * Task)) (s s1 s2 : ExecState)
    (r : Result unit) :
  actorRun wc cs1 s s1 (Ok tt) ->
  actorRun wc cs2 s1 s2 r ->
  actorRun wc (cs1 ++ cs2) s s2 r.
Proof.
  intros Hrun. remember (Ok tt) as ok eqn:Hok.
  induction Hrun as [s|i act task cs s sa sb r' Hcall Hrun IH|]; intros Hrest.
  - exact Hrest.
  - simpl. eapply runNext; [exact Hcall|]. apply IH; assumption.
  - discriminate Hok.
Qed.

Lemma actorRun_app_fail (wc : WorkspaceClient)
    (cs1 cs2 : list (nat * taskActor * Task)) (s s1 : ExecState) (err : Err) :
  actorRun wc cs1 s s1 (Fail err) ->
  actorRun wc (cs1 ++ cs2) s s1 (Fail err).
Proof.
  intros Hrun. remember (Fail err) as failed eqn:Hfail.
  induction Hrun as [s|i act task cs s sa sb r' Hcall Hrun IH|]; subst.
  - discriminate Hfail.
  - simpl. eapply runNext; [exact Hcall|]. apply IH. reflexivity.
  - simpl. apply runStop. assumption.
Qed.

Lemma runActors_run (wc : WorkspaceClient) (task : Task)
    (acts : list taskActor) (i : nat) (s : ExecState) :
  actorRun wc (callsFrom i acts task) s
           (fst (runActors wc task acts i s)) (snd (runActors wc task acts i s)).
Proof.
  revert i s. induction acts as [|act acts IH]; intros i s; simpl.
  - constructor.
  - unfold bind.
    destruct (call (EvActor i task) (act wc task) s) as [s1 [[]|err]] eqn:Hcall.
    + eapply runNext; [exact Hcall|]. apply IH.
    + apply runStop. exact Hcall.
Qed.

Lemma runTasks_run (wc : WorkspaceClient) (acts : list taskActor)
    (tasks : list Task) (s : ExecState) :
  actorRun wc (actorCalls acts tasks) s
           (fst (runTasks wc acts tasks s)) (snd (runTasks wc acts tasks s)).
Proof.
  revert s. induction tasks as [|task tasks IH]; intros s.
  - constructor.
  - change (actorCalls acts (task :: tasks))
      with (callsFrom 0 acts task ++ actorCalls acts tasks)%list.
    simpl runTasks. unfold bind.
    pose proof (runActors_run wc task acts 0 s) as Hone.
    destruct (runActors wc task acts 0 s) as [s1 [[]|err]]; simpl in Hone.
    + eapply actorRun_app_ok; [exact Hone|]. apply IH.
    + simpl. apply actorRun_app_fail. exact Hone.
Qed.

(** The call log of a run: the calls up to the one that stopped it. *)
Lemma actorRun_log (wc : WorkspaceClient)
    (cs : list (nat * taskActor * Task)) (s sf : ExecState) (r : Result unit) :
  actorRun wc cs s sf r ->
  exists k, k <= length cs
            /\ snd sf = (snd s ++ map eventOf (take k cs))%list
            /\ (r = Ok tt -> k = length cs)
            /\ (forall err, r = Fail err -> 0 < k).
Proof.
  induction 1 as [s|i act task cs s s1 s2 r Hcall _ IH
                 |i act task cs s s1 err Hcall].
  - exists 0. simpl. rewrite app_nil_r.
    repeat split; [lia|discriminate].
  - destruct IH as (k & Hk & Hlog & Hok & Hfail).
    apply call_inv in Hcall as [_ Hlog1].
    exists (S k). simpl. rewrite Hlog, Hlog1, <- app_assoc.
    repeat split; [lia| |lia].
    intros Hr. rewrite (Hok Hr). reflexivity.
  - apply call_inv in Hcall as [_ Hlog1].
    exists 1. simpl. rewrite ?take_0, Hlog1.
    repeat split; [lia|discriminate|lia].
Qed.

(** C7: once the gates have said yes, the query is built, the search has
    returned [tasks] and the filters have left [filtered], the surviving
    tasks are a sublist of the search result (same order), and [exec] makes
    the actor calls in task-major order (every actor of the first task in
    declaration order, then every actor of the next task); the first call
    that returns an error ends [exec] with that error, the state being the
    one that call left, so that no later actor and no later task is
    processed; the call log grows by exactly the calls made. *)
Theorem actors_run_in_task_order (p : periodic) (c : Client)
    (wc : WorkspaceClient) (q : SearchQuery) (tasks filtered : list Task)
    (s0 s1 s2 s3 s4 s5 : ExecState) :
  call EvGetClient (getWorkspaceClient p c) s0 = (s1, Ok wc) ->
  runGates wc (gates p) 0 s1 = (s2, Ok true) ->
  runMutators wc (queryMutators p) 0 emptyQuery s2 = (s3, Ok q) ->
  call EvSearch (Search wc q) s3 = (s4, Ok tasks) ->
  filterTasks wc q (taskFilters p) tasks s4 = (s5, Ok filtered) ->
  sublist filtered tasks
  /\ exists sf r,
      exec p c s0 = (sf, r)
      /\ actorRun wc (actorCalls (taskActors p) filtered) s5 sf r
      /\ exists k,
          k <= length (actorCalls (taskActors p) filtered)
          /\ snd sf = (snd s5 ++ map eventOf
                         (take k (actorCalls (taskActors p) filtered)))%list
          /\ (r = Ok tt -> k = length (actorCalls (taskActors p) filtered))
          /\ (forall err, r = Fail err -> 0 < k).
Proof.
  intros Hget Hgates Hmut Hsearch Hfilter.
  split; [exact (filterTasks_sublist _ _ _ _ _ _ _ Hfilter)|].
  pose proof (runTasks_run wc (taskActors p) filtered s5) as Hrun.
  exists (fst (runTasks wc (taskActors p) filtered s5)),
         (snd (runTasks wc (taskActors p) filtered s5)).
  split; [|split; [exact Hrun|exact (actorRun_log _ _ _ _ _ Hrun)]].
  unfold exec, bind. rewrite Hget, Hgates. simpl.
  rewrite Hmut, Hsearch, Hfilter.
  destruct (runTasks wc (taskActors p) filtered s5); reflexivity.
Qed.

End ExecFacts.

(** ** The properties at work in the concrete world *)

Module DemoFacts.
Import Demo.
#[local] Existing Instance demoDomain.
#[local] Existing Instance demoCollaborators.

(** C2, as stated, fails: at 09:00:00 sharp the window from 09:00:00 to
    17:00:00 holds the current time when read as half-open, and the gate
    says no. *)
Lemma WhenBetween_start_excluded :
  ~ WhenBetweenHalfOpen "UTC" "09:00:00" "17:00:00" tt at9.
Proof.
  intros Hclaim.
  specialize (Hclaim "UTC" (mkTime 9 0 0 0) (mkTime 17 0 0 0)
                     eq_refl eq_refl eq_refl).
  destruct Hclaim as [_ Hback].
  assert (Hin : inHalfOpenWindow (mkTime 9 0 0 0) (mkTime 17 0 0 0)
                                 (mkTime 9 0 0 0)).
  { unfold inHalfOpenWindow.
    destruct (decide (time_lt (mkTime 17 0 0 0) (mkTime 9 0 0 0))) as [Hlt|_].
    - unfold time_lt in Hlt. simpl in Hlt. lia.
    - unfold time_lt. simpl. split; lia. }
  specialize (Hback Hin). vm_compute in Hback. discriminate Hback.
Qed.

(** The window gate at noon, between 09:00:00 and 17:00:00. *)
Lemma WhenBetween_open_window_noon :
  exists b, WhenBetweenGate "UTC" "09:00:00" "17:00:00" tt at12 = (at12, Ok b)
            /\ (b = true
                <-> inOpenWindow (mkTime 9 0 0 0) (mkTime 17 0 0 0)
                                 (mkTime 12 0 0 0)).
Proof.
  apply (@WhenBetween_open_window demoDomain demoCollaborators
           "UTC" "09:00:00" "17:00:00" "UTC"
           (mkTime 9 0 0 0) (mkTime 17 0 0 0) tt at12);
    reflexivity.
Defined.



(** [OnlyIncomplete] on a query whose [Completed] is set, and a second
    [OnlyIncomplete] after a first. *)
Lemma singular_field_set_once_demo :
  OnlyIncompleteMutator tt (setCompleted (Some true) emptyQuery) at9
  = (at9, setCompleted (Some true) emptyQuery,
     Some "Multiple clauses set Completed")
  /\ OnlyIncompleteMutator tt (setCompleted (Some false) emptyQuery) at9
     = (at9, setCompleted (Some false) emptyQuery,
        Some "Multiple clauses set Completed").
Proof.
  split.
  - apply (proj1 (@singular_field_set_once demoDomain demoCollaborators
                    MOnlyIncomplete tt (setCompleted (Some true) emptyQuery) at9)).
    reflexivity.
  - apply (proj2 (@singular_field_set_once demoDomain demoCollaborators
                    MOnlyIncomplete tt emptyQuery at9)
                 MOnlyIncomplete).
    reflexivity.
Defined.

(** Two sections are named "Today"; the later one, 103, is the one found. *)
Lemma sections_by_name_last_wins_demo :
  (exists m, GetSectionsByName tt "my tasks" at9 = (at9, Ok m)
             /\ m !! "Today" = Some (mkSection "103" "Today"))
  /\ GetSectionByName tt "my tasks" "Today" at9
     = (at9, Ok (mkSection "103" "Today"))
  /\ (forall (t : Task) (w0 : World),
        GetMyUserTaskList tt w0 = (at9, Ok "my tasks") ->
        MoveToMyTasksSectionActor "Today" tt t w0
        = AddTaskToSection tt t (mkSection "103" "Today") at9)
  /\ (forall (q : SearchQuery) (u : User) (w0 w1 : World),
        GetMe tt w0 = (w1, Ok u) ->
        GetMyUserTaskList tt w1 = (at9, Ok "my tasks") ->
        InMyTasksSectionsMutator ["Today"] tt q w0
        = (at9, setSectionsAny (SectionsAny q ++ [mkSection "103" "Today"])
                  (setAssigneeAny (AssigneeAny q ++ [u]) q), None)).
Proof.
  apply (@sections_by_name_last_wins demoDomain demoCollaborators
           tt "my tasks" at9 at9 demoSections
           [mkSection "101" "Today"; mkSection "102" "Later"] []
           (mkSection "103" "Today")).
  - reflexivity.
  - reflexivity.
  - constructor.
Defined.

(** The second gate of [closedRule] says no: [exec] returns [nil] after the
    getter and two gate calls. *)
Lemma gates_short_circuit_demo :
  exec closedRule tt (at9, [])
  = ((at9, [EvGetClient; EvGate 0; EvGate 1]), Ok tt).
Proof.
  apply (@gates_short_circuit demoDomain demoCollaborators
           closedRule tt (at9, []) (at9, [EvGetClient])
           (at9, [EvGetClient; EvGate 0]) tt [yes] [broken] no at9 (Ok false)).
  - reflexivity.
  - reflexivity.
  - reflexivity.
  - reflexivity.
  - discriminate.
Defined.

(** [failingRule]: tasks 1 and 2 survive, the run stops in the actors of
    task 2. *)
Lemma actors_run_in_task_order_demo :
  sublist [1; 2]%nat [1; 2; 3]%nat
  /\ exists sf r,
      exec failingRule tt (at9, []) = (sf, r)
      /\ actorRun tt (actorCalls (taskActors failingRule) [1; 2]%nat)
                  afterFilters sf r
      /\ exists k,
          k <= length (actorCalls (taskActors failingRule) [1; 2]%nat)
          /\ snd sf = (snd afterFilters
                       ++ map eventOf
                            (take k (actorCalls (taskActors failingRule)
                                                [1; 2]%nat)))%list
          /\ (r = Ok tt
              -> k = length (actorCalls (taskActors failingRule) [1; 2]%nat))
          /\ (forall err, r = Fail err -> 0 < k).
Proof.
  eapply (@actors_run_in_task_order demoDomain demoCollaborators
            failingRule tt tt
            (setCompleted (Some false) emptyQuery) [1; 2; 3]%nat [1; 2]%nat
            (at9, [])); reflexivity.
Defined.

End DemoFacts.

(** ** More about the linkifier *)

Module HtmlMoreFacts.
Import Html HtmlSpec HtmlMore HtmlFacts.

Lemma append_assoc (s1 s2 s3 : string) : (s1 ++ s2) ++ s3 = s1 ++ (s2 ++ s3).
Proof.
  induction s1 as [|c s1 IH]; [reflexivity|].
  change (String c ((s1 ++ s2) ++ s3) = String c (s1 ++ (s2 ++ s3))).
  rewrite IH. reflexivity.
Qed.

Lemma append_empty_r (s : string) : s ++ "" = s.
Proof.
  induction s as [|c s IH]; [reflexivity|].
  change (String c (s ++ "") = String c s). rewrite IH. reflexivity.
Qed.

Lemma Split_cons (s : string) : exists line lines, Split s = line :: lines.
Proof.
  destruct s as [|c rest]; simpl; [eauto|].
  destruct (Ascii.eqb c "010"); [eauto|].
  destruct (Split rest); eauto.
Qed.

Lemma concat_String (c : ascii) (line : string) (lines : list string) :
  String.concat newline (String c line :: lines)
  = String c (String.concat newline (line :: lines)).
Proof. destruct lines; reflexivity. Qed.

(** Joining the lines of a string with newlines gives the string back. *)
Lemma Join_Split (s : string) : Join (Split s) = s.
Proof.
  unfold Join. induction s as [|c rest IH]; [reflexivity|].
  destruct (Split_cons rest) as (line & lines & Hs).
  simpl Split. rewrite Hs in IH |- *.
  destruct (Ascii.eqb c "010") eqn:Hc.
  - apply Ascii.eqb_eq in Hc. subst c.
    change (String "010" (String.concat newline (line :: lines))
            = String "010" rest).
    rewrite IH. reflexivity.
  - rewrite concat_String, IH. reflexivity.
Qed.

Lemma textOf_newText (d : string) (next : Node) :
  textOf (newText d next) = d ++ textOf next.
Proof. reflexivity. Qed.

Lemma textOf_lineNode (line : string) (next : Node) :
  textOf (lineNode line next) = line ++ textOf next.
Proof.
  unfold lineNode. destruct (hasURLPrefix line); simpl; [|reflexivity].
  rewrite append_empty_r. reflexivity.
Qed.


Lemma textOf_linkedLines (lines : list string) (next : Node) :
  textOf (linkedLines lines next) = Join lines ++ textOf next.
Proof.
  unfold Join. induction lines as [|line rest IH]; [reflexivity|].
  destruct rest as [|line2 rest2]; [apply textOf_lineNode|].
  change (linkedLines (line :: line2 :: rest2) next)
    with (lineNode line (newText newline (linkedLines (line2 :: rest2) next))).
  rewrite textOf_lineNode, textOf_newText, IH.
  change (String.concat newline (line :: line2 :: rest2))
    with (line ++ newline ++ String.concat newline (line2 :: rest2)).
  rewrite !append_assoc. reflexivity.
Qed.


(** X2: [fixUnlinkedURL] keeps the text of the document: whatever it wraps
    into anchors, the text read in document order is the same before and
    after. *)
Theorem fixUnlinkedURL_keeps_text (node : Node) :
  textOf (fixUnlinkedURL node) = textOf node.
Proof.
  induction node as [|ty a d ns attr fc IHfc sib IHsib]; [reflexivity|].
  rewrite fixUnlinkedURL_step.
  destruct (isLink ty d); [reflexivity|].
  destruct (NodeType_eqb ty TextNode) eqn:Hty; simpl andb.
  - destruct (existsb hasURLPrefix (Split d)); simpl; rewrite Hty.
    + rewrite textOf_linkedLines, Join_Split, IHsib. reflexivity.
    + rewrite IHsib. reflexivity.
  - simpl. rewrite Hty, IHfc, IHsib. reflexivity.
Qed.

Lemma hasLink_false ty a d ns attr fc sib :
  hasLink (mkNode ty a d ns attr fc sib) = false ->
  isLink ty d = false /\ hasLink fc = false /\ hasLink sib = false.
Proof.
  simpl. intros Hl.
  apply orb_false_elim in Hl as [Hl Hsib].
  apply orb_false_elim in Hl as [Hl Hfc]. auto.
Qed.

Lemma bareURL_step ty a d ns attr fc sib :
  bareURL (mkNode ty a d ns attr fc sib)
  = (if isLink ty d then false
     else (NodeType_eqb ty TextNode && existsb hasURLPrefix (Split d))
          || bareURL fc)
    || bareURL sib.
Proof.
  change (bareURL (mkNode ty a d ns attr fc sib))
    with ((if isLink ty d then false
           else nodeHasUnlinkedURL (mkNode ty a d ns attr fc sib) || bareURL fc)
          || bareURL sib).
  rewrite nodeHasUnlinkedURL_eq. reflexivity.
Qed.


Lemma bareURL_lineNode (line : string) (next : Node) :
  Split line = [line] ->
  bareURL (lineNode line next) = bareURL next.
Proof.
  intros Hl. unfold lineNode. destruct (hasURLPrefix line) eqn:Hp.
  - reflexivity.
  - unfold newText. rewrite bareURL_step, Hl. simpl. rewrite Hp. reflexivity.
Qed.

Lemma bareURL_linkedLines (lines : list string) (next : Node) :
  Forall (fun l => Split l = [l]) lines ->
  bareURL (linkedLines lines next) = bareURL next.
Proof.
  intros Hall. induction Hall as [|line rest Hline Hrest IH]; [reflexivity|].
  destruct rest as [|line2 rest2]; [apply bareURL_lineNode; exact Hline|].
  change (linkedLines (line :: line2 :: rest2) next)
    with (lineNode line (newText newline (linkedLines (line2 :: rest2) next))).
  rewrite (bareURL_lineNode _ _ Hline). exact IH.
Qed.

(** X4: in a tree without links the linkifier is complete: afterwards no
    text node outside an anchor has a line that begins with a scheme, the
    siblings that follow the new anchors included. *)
Theorem fixUnlinkedURL_complete_without_links (node : Node) :
  hasLink node = false -> bareURL (fixUnlinkedURL node) = false.
Proof.
  induction node as [|ty a d ns attr fc IHfc sib IHsib]; [reflexivity|].
  intros Hl. apply hasLink_false in Hl as (Hlink & Hfc & Hsib).
  rewrite fixUnlinkedURL_step, Hlink.
  destruct (NodeType_eqb ty TextNode && existsb hasURLPrefix (Split d)) eqn:Hb.
  - rewrite bareURL_step.
    replace (isLink ty "") with false
      by (unfold isLink; destruct (NodeType_eqb ty ElementNode); reflexivity).
    replace (NodeType_eqb ty TextNode && existsb hasURLPrefix (Split ""))
      with false by (destruct (NodeType_eqb ty TextNode); reflexivity).
    rewrite (IHfc Hfc), (bareURL_linkedLines _ _ (Split_lines d)), (IHsib Hsib).
    reflexivity.
  - rewrite bareURL_step, Hlink, Hb, (IHfc Hfc), (IHsib Hsib). reflexivity.
Qed.

Lemma autoLinked_lineNode (line : string) (next : Node) :
  autoLinked next -> autoLinked (lineNode line next).
Proof.
  intros Hn. unfold lineNode. destruct (hasURLPrefix line) eqn:Hp.
  - simpl. split; [|exact Hn]. exists line. auto.
  - simpl. auto.
Qed.

Lemma autoLinked_linkedLines (lines : list string) (next : Node) :
  autoLinked next -> autoLinked (linkedLines lines next).
Proof.
  intros Hn. induction lines as [|line rest IH]; [exact Hn|].
  destruct rest as [|line2 rest2]; [apply autoLinked_lineNode; exact Hn|].
  change (linkedLines (line :: line2 :: rest2) next)
    with (lineNode line (newText newline (linkedLines (line2 :: rest2) next))).
  apply autoLinked_lineNode. simpl. auto.
Qed.

(** X5: in a tree without links every anchor that [fixUnlinkedURL] leaves is
    an auto-link: its link target begins with a scheme and is the very text
    it wraps. *)
Theorem fixUnlinkedURL_makes_auto_links (node : Node) :
  hasLink node = false -> autoLinked (fixUnlinkedURL node).
Proof.
  induction node as [|ty a d ns attr fc IHfc sib IHsib]; [intros; exact I|].
  intros Hl. apply hasLink_false in Hl as (Hlink & Hfc & Hsib).
  rewrite fixUnlinkedURL_step, Hlink.
  destruct (NodeType_eqb ty TextNode && existsb hasURLPrefix (Split d)) eqn:Hb.
  - simpl autoLinked.
    replace (isLink ty "") with false
      by (unfold isLink; destruct (NodeType_eqb ty ElementNode); reflexivity).
    split; [exact (IHfc Hfc)|].
    apply autoLinked_linkedLines. exact (IHsib Hsib).
  - simpl autoLinked. rewrite Hlink. split; [exact (IHfc Hfc)|exact (IHsib Hsib)].
Qed.


Lemma fixUnlinkedURL_complete_demo :
  bareURL (fixUnlinkedURL twoParagraphs) = false.
Proof.
  apply (fixUnlinkedURL_complete_without_links twoParagraphs). reflexivity.
Defined.

Lemma fixUnlinkedURL_auto_links_demo : autoLinked (fixUnlinkedURL twoParagraphs).
Proof.
  apply (fixUnlinkedURL_makes_auto_links twoParagraphs). reflexivity.
Defined.

End HtmlMoreFacts.

(** ** More about the gates *)

Section GateFacts.
Context `{Calendar}.

Lemma timeBefore_false (t1 t2 : Time) :
  timeBefore t1 t2 = false <-> ~ time_lt t1 t2.
Proof.
  rewrite <- timeBefore_lt. destruct (timeBefore t1 t2).
  - split; [discriminate|]. intros Hn. exfalso. apply Hn. reflexivity.
  - split; [discriminate|reflexivity].
Qed.

Lemma Time_eq (t1 t2 : Time) :
  Hour t1 = Hour t2 -> Minute t1 = Minute t2 -> Second t1 = Second t2 ->
  Nanosecond t1 = Nanosecond t2 -> t1 = t2.
Proof. destruct t1, t2; simpl; intros; subst; reflexivity. Qed.

Lemma time_lt_trichotomy (t1 t2 : Time) :
  time_lt t1 t2 \/ t1 = t2 \/ time_lt t2 t1.
Proof.
  assert (Hcases : time_lt t1 t2
                   \/ (Hour t1 = Hour t2 /\ Minute t1 = Minute t2
                       /\ Second t1 = Second t2
                       /\ Nanosecond t1 = Nanosecond t2)
                   \/ time_lt t2 t1) by (unfold time_lt; lia).
  destruct Hcases as [Hlt|[(Hh & Hm & Hs & Hn)|Hgt]]; auto using Time_eq.
Qed.

(** X6: [timeBefore] is a strict total order on times of day: no time is
    before itself, the relation is transitive, and of two different times
    exactly one is before the other. *)
Theorem timeBefore_strict_total_order :
  (forall t, timeBefore t t = false)
  /\ (forall t1 t2 t3,
        timeBefore t1 t2 = true -> timeBefore t2 t3 = true ->
        timeBefore t1 t3 = true)
  /\ (forall t1 t2, timeBefore t1 t2 = true -> timeBefore t2 t1 = false)
  /\ (forall t1 t2, timeBefore t1 t2 = true \/ t1 = t2 \/ timeBefore t2 t1 = true).
Proof.
  split; [|split; [|split]].
  - intros t. apply timeBefore_false. unfold time_lt. lia.
  - intros t1 t2 t3. rewrite !timeBefore_lt. unfold time_lt. lia.
  - intros t1 t2. rewrite timeBefore_lt, timeBefore_false. unfold time_lt. lia.
  - intros t1 t2. rewrite !timeBefore_lt. apply time_lt_trichotomy.
Qed.

(** X7: on valid times of day [timeBefore] is the chronological order: it
    compares the nanoseconds elapsed since midnight. *)
Theorem timeBefore_chronological (t1 t2 : Time) :
  validTime t1 -> validTime t2 ->
  (timeBefore t1 t2 = true <-> (nanosOfDay t1 < nanosOfDay t2)%Z).
Proof.
  intros Hv1 Hv2. rewrite timeBefore_lt.
  unfold validTime, time_lt, nanosOfDay in *. lia.
Qed.

(** X8: a window whose start and end are the same time of day is never
    open: the gate says no at every time. *)
Theorem WhenBetween_empty_window (tz t : string) (loc : Location) (s : Time)
    (wc : WorkspaceClient) (w : World) :
  LoadLocation tz = Ok loc ->
  ParseTime t = Ok s ->
  WhenBetweenGate tz t t wc w = (w, Ok false).
Proof.
  intros Hloc Hs. unfold WhenBetweenGate. rewrite Hloc, Hs.
  assert (Hss : timeBefore s s = false)
    by (apply timeBefore_false; unfold time_lt; lia).
  rewrite Hss.
  destruct (timeBefore s (TimeOfNowIn w loc)) eqn:Hb1; [|reflexivity].
  destruct (timeBefore (TimeOfNowIn w loc) s) eqn:Hb2; [|reflexivity].
  apply timeBefore_lt in Hb1, Hb2. unfold time_lt in Hb1, Hb2. lia.
Qed.

(** X9: exchanging start and end gives the complementary window: away from
    the two end points, the gate from [start] to [end] says yes exactly when
    the gate from [end] to [start] says no. *)
Theorem WhenBetween_swap_complements (tz start end_ : string) (loc : Location)
    (s e : Time) (wc : WorkspaceClient) (w : World) :
  LoadLocation tz = Ok loc ->
  ParseTime start = Ok s ->
  ParseTime end_ = Ok e ->
  s <> e ->
  TimeOfNowIn w loc <> s ->
  TimeOfNowIn w loc <> e ->
  exists b, WhenBetweenGate tz start end_ wc w = (w, Ok b)
            /\ WhenBetweenGate tz end_ start wc w = (w, Ok (negb b)).
Proof.
  intros Hloc Hs He Hse Hns Hne. unfold WhenBetweenGate.
  rewrite Hloc, Hs, He.
  set (now := TimeOfNowIn w loc) in *.
  destruct (time_lt_trichotomy s e) as [Hlt|[Heq|Hlt]]; [|contradiction|];
    destruct (time_lt_trichotomy now s) as [Hn1|[Heq1|Hn1]]; try contradiction;
    destruct (time_lt_trichotomy now e) as [Hn2|[Heq2|Hn2]]; try contradiction;
    destruct (timeBefore e s) eqn:B1; destruct (timeBefore s e) eqn:B2;
    destruct (timeBefore s now) eqn:B3; destruct (timeBefore now e) eqn:B4;
    destruct (timeBefore e now) eqn:B5; destruct (timeBefore now s) eqn:B6;
    simpl; try (eexists; split; reflexivity);
    exfalso;
    repeat match goal with
           | Hb : timeBefore _ _ = true |- _ => apply timeBefore_lt in Hb
           | Hb : timeBefore _ _ = false |- _ => apply timeBefore_false in Hb
           end;
    unfold time_lt in *; lia.
Qed.

(** X10: the window gate never changes the world, and it reports the first
    invalid argument: an unknown time zone first, then an unparsable start,
    then an unparsable end. *)
Theorem WhenBetween_errors (tz start end_ : string) (wc : WorkspaceClient)
    (w : World) :
  fst (WhenBetweenGate tz start end_ wc w) = w
  /\ (forall err, LoadLocation tz = Fail err ->
        WhenBetweenGate tz start end_ wc w = (w, Fail err))
  /\ (forall loc err, LoadLocation tz = Ok loc -> ParseTime start = Fail err ->
        WhenBetweenGate tz start end_ wc w = (w, Fail err))
  /\ (forall loc s err, LoadLocation tz = Ok loc -> ParseTime start = Ok s ->
        ParseTime end_ = Fail err ->
        WhenBetweenGate tz start end_ wc w = (w, Fail err)).
Proof.
  unfold WhenBetweenGate. split; [|split; [|split]].
  - destruct (LoadLocation tz); [|reflexivity].
    destruct (ParseTime start) as [s|]; [|reflexivity].
    destruct (ParseTime end_) as [e|]; [|reflexivity].
    destruct (timeBefore e s); reflexivity.
  - intros err ->. reflexivity.
  - intros loc err -> ->. reflexivity.
  - intros loc s err -> -> ->. reflexivity.
Qed.

Lemma existsb_Weekday (wd : Weekday) (days : list Weekday) :
  existsb (fun d => Weekday_eqb wd d) days = true <-> wd ∈ days.
Proof.
  rewrite existsb_exists. split.
  - intros (d & Hin & Heq). apply list_elem_of_In in Hin.
    destruct wd, d; try discriminate Heq; exact Hin.
  - intros Hin. exists wd. split; [apply list_elem_of_In; exact Hin|].
    destruct wd; reflexivity.
Qed.

(** X11: the day-of-week gate says yes exactly when the current weekday is
    among the allowed days; so two lists with the same members, in whatever
    order and with whatever repetitions, give the same gate. *)
Theorem WhenDayOfWeek_membership (tz : string) (days days' : list Weekday)
    (wc : WorkspaceClient) (w : World) :
  (forall loc, LoadLocation tz = Ok loc ->
     exists b, WhenDayOfWeekGate tz days wc w = (w, Ok b)
               /\ (b = true <-> WeekdayOfNowIn w loc ∈ days))
  /\ ((forall d, d ∈ days <-> d ∈ days') ->
      WhenDayOfWeekGate tz days wc w = WhenDayOfWeekGate tz days' wc w).
Proof.
  unfold WhenDayOfWeekGate. split.
  - intros loc ->. eexists. split; [reflexivity|]. apply existsb_Weekday.
  - intros Hsame. destruct (LoadLocation tz) as [loc|]; [|reflexivity].
    do 2 f_equal. apply eq_true_iff_eq.
    rewrite !existsb_Weekday. apply Hsame.
Qed.

(** X12: [WeekDays] and [WeekendDays] split the week: at any moment exactly
    one of the two day-of-week gates says yes. *)
Theorem WeekDays_WeekendDays_partition (tz : string) (loc : Location)
    (wc : WorkspaceClient) (w : World) :
  LoadLocation tz = Ok loc ->
  exists b, WhenDayOfWeekGate tz WeekDays wc w = (w, Ok b)
            /\ WhenDayOfWeekGate tz WeekendDays wc w = (w, Ok (negb b)).
Proof.
  intros Hloc. unfold WhenDayOfWeekGate. rewrite Hloc.
  eexists. split; [reflexivity|].
  destruct (WeekdayOfNowIn w loc); reflexivity.
Qed.

End GateFacts.

(** ** More about sections by name and the query mutators *)

Section LookupFacts.
Context `{Collaborators}.

Lemma lastNamed_cons (name : string) (s : Section_) (secs : list Section_) :
  lastNamed name (s :: secs)
  = match lastNamed name secs with
    | Some s' => Some s'
    | None => if decide (Name s = name) then Some s else None
    end.
Proof.
  unfold lastNamed. rewrite filter_cons.
  destruct (decide (Name s = name)); [|destruct (last _); reflexivity].
  rewrite last_cons. reflexivity.
Qed.

(** The map built by the loop of [GetSectionsByName], looked up. *)
Lemma foldl_insert_lookup (secs : list Section_) (m : gmap string Section_)
    (name : string) :
  foldl (fun secsByName s => <[Name s := s]> secsByName) m secs !! name
  = match lastNamed name secs with
    | Some s => Some s
    | None => m !! name
    end.
Proof.
  revert m. induction secs as [|s secs IH]; intros m; [reflexivity|].
  simpl foldl. rewrite IH, lastNamed_cons.
  destruct (lastNamed name secs); [reflexivity|].
  destruct (decide (Name s = name)) as [<-|Hne].
  - apply lookup_insert_eq.
  - apply lookup_insert_ne. exact Hne.
Qed.

Lemma lastNamed_unique (secs : list Section_) (s : Section_) :
  NoDup (map Name secs) -> s ∈ secs -> lastNamed (Name s) secs = Some s.
Proof.
  induction secs as [|s' secs IH]; intros Hnd Hin; [inversion Hin|].
  simpl in Hnd. apply NoDup_cons in Hnd as [Hnotin Hnd].
  rewrite lastNamed_cons.
  apply elem_of_cons in Hin as [->|Hin].
  - destruct (lastNamed (Name s') secs) as [s2|] eqn:Hlast.
    + exfalso. apply Hnotin. unfold lastNamed in Hlast.
      apply last_Some_elem_of in Hlast.
      apply list_elem_of_filter in Hlast as [Hname Hin2].
      rewrite <- Hname. apply list_elem_of_fmap. exists s2. auto.
    + rewrite decide_True by reflexivity. reflexivity.
  - rewrite (IH Hnd Hin). reflexivity.
Qed.

Lemma foldl_insert_size (secs : list Section_) (m : gmap string Section_) :
  NoDup (map Name secs) ->
  Forall (fun s => m !! Name s = None) secs ->
  size (foldl (fun secsByName s => <[Name s := s]> secsByName) m secs)
  = size m + length secs.
Proof.
  revert m. induction secs as [|s secs IH]; intros m Hnd Hfresh; simpl.
  - lia.
  - simpl in Hnd. apply NoDup_cons in Hnd as [Hnotin Hnd].
    apply Forall_cons in Hfresh as [Hs Hfresh].
    rewrite IH; [rewrite (map_size_insert_None _ _ _ Hs); lia|exact Hnd|].
    apply Forall_forall. intros s' Hin.
    rewrite lookup_insert_ne.
    + rewrite Forall_forall in Hfresh. apply Hfresh. exact Hin.
    + intros Heq. apply Hnotin. rewrite Heq.
      apply list_elem_of_fmap. exists s'. auto.
Qed.

(** X13: [GetSectionsByName] binds every name to the last section of the
    list that has it, and binds nothing else; when the names of the list are
    all different, every section is found under its own name and the map has
    as many entries as the list has sections. *)
Theorem GetSectionsByName_lookup (wc : WorkspaceClient) (project : Project)
    (w w' : World) (secs : list Section_) :
  GetSections wc project w = (w', Ok secs) ->
  exists m, GetSectionsByName wc project w = (w', Ok m)
            /\ (forall name, m !! name = lastNamed name secs)
            /\ (NoDup (map Name secs) ->
                (forall s, s ∈ secs -> m !! Name s = Some s)
                /\ size m = length secs).
Proof.
  intros Hget. eexists. split; [|split].
  - unfold GetSectionsByName, bind. rewrite Hget. reflexivity.
  - intros name. rewrite foldl_insert_lookup, lookup_empty.
    destruct (lastNamed name secs); reflexivity.
  - intros Hnd. split.
    + intros s Hin. rewrite foldl_insert_lookup, (lastNamed_unique _ _ Hnd Hin).
      reflexivity.
    + rewrite foldl_insert_size; [rewrite map_size_empty; lia|exact Hnd|].
      apply Forall_forall. intros s _. apply lookup_empty.
Qed.

(** X14: [GetSectionByName] passes on the error of the section listing;
    otherwise it returns the last section of that name, and when the list
    has no section of that name it fails with "Section '<name>' not
    found". *)
Theorem GetSectionByName_result (wc : WorkspaceClient) (project : Project)
    (name : string) (w w' : World) (r : Result (list Section_)) :
  GetSections wc project w = (w', r) ->
  GetSectionByName wc project name w
  = (w', match r with
         | Fail err => Fail err
         | Ok secs =>
             match lastNamed name secs with
             | Some sec => Ok sec
             | None => Fail ("Section '" ++ name ++ "' not found")
             end
         end).
Proof.
  intros Hget. unfold GetSectionByName, GetSectionsByName, bind.
  rewrite Hget. destruct r as [secs|err]; [|reflexivity]. simpl.
  rewrite foldl_insert_lookup, lookup_empty.
  destruct (lastNamed name secs); reflexivity.
Qed.

Lemma appendSectionsAny_app (m : gmap string Section_) (pre rest : list string)
    (resolved : list Section_) (q : SearchQuery) :
  Forall2 (fun name sec => m !! name = Some sec) pre resolved ->
  appendSectionsAny m (pre ++ rest) q
  = appendSectionsAny m rest (setSectionsAny (SectionsAny q ++ resolved) q).
Proof.
  intros Hres. revert q.
  induction Hres as [|name sec pre resolved Hname _ IH]; intros q; simpl.
  - rewrite app_nil_r. destruct q; reflexivity.
  - rewrite Hname, IH. simpl. rewrite <- app_assoc. reflexivity.
Qed.

(** X15: [InMyTasksSections] first adds the authenticated user to
    [AssigneeAny], then resolves the names in order in the user's task list.
    When every name is the name of a section, the resolved sections (for
    each name the last section that has it) are appended to [SectionsAny];
    at the first name that no section has, it fails with "Section '<name>'
    not found", the user and the sections resolved so far staying in the
    query. *)
Theorem InMyTasksSections_resolves (pre : list string)
    (resolved : list Section_) (wc : WorkspaceClient) (q : SearchQuery)
    (w0 w1 w2 w3 : World) (u : User) (utl : Project) (secs : list Section_) :
  GetMe wc w0 = (w1, Ok u) ->
  GetMyUserTaskList wc w1 = (w2, Ok utl) ->
  GetSections wc utl w2 = (w3, Ok secs) ->
  Forall2 (fun name sec => lastNamed name secs = Some sec) pre resolved ->
  InMyTasksSectionsMutator pre wc q w0
  = (w3, setSectionsAny (SectionsAny q ++ resolved)
           (setAssigneeAny (AssigneeAny q ++ [u]) q), None)
  /\ (forall bad post,
        lastNamed bad secs = None ->
        InMyTasksSectionsMutator (pre ++ bad :: post) wc q w0
        = (w3, setSectionsAny (SectionsAny q ++ resolved)
                 (setAssigneeAny (AssigneeAny q ++ [u]) q),
           Some ("Section '" ++ bad ++ "' not found"))).
Proof.
  intros Hme Hutl Hget Hres.
  set (m := foldl (fun secsByName s => <[Name s := s]> secsByName)
                  (∅ : gmap string Section_) secs).
  assert (Hm : forall name, m !! name = lastNamed name secs).
  { intros name. unfold m. rewrite foldl_insert_lookup, lookup_empty.
    destruct (lastNamed name secs); reflexivity. }
  assert (Hres' : Forall2 (fun name sec => m !! name = Some sec) pre resolved).
  { eapply Forall2_impl; [exact Hres|]. intros name sec Hl. rewrite Hm. exact Hl. }
  assert (Hby : GetSectionsByName wc utl w2 = (w3, Ok m)).
  { unfold GetSectionsByName, bind. rewrite Hget. reflexivity. }
  unfold InMyTasksSectionsMutator. rewrite Hme, Hutl, Hby. split.
  - rewrite <- (app_nil_r pre), (appendSectionsAny_app m pre [] resolved _ Hres').
    reflexivity.
  - intros bad post Hbad.
    rewrite (appendSectionsAny_app m pre (bad :: post) resolved _ Hres').
    simpl. rewrite Hm, Hbad. reflexivity.
Qed.

Lemma appendTagsAny_app (m : gmap string Tag) (pre rest : list string)
    (tags : list Tag) (q : SearchQuery) :
  Forall2 (fun name tag => m !! name = Some tag) pre tags ->
  appendTagsAny m (pre ++ rest) q
  = appendTagsAny m rest (setTagsAny (TagsAny q ++ tags) q).
Proof.
  intros Hres. revert q.
  induction Hres as [|name tag pre tags Hname _ IH]; intros q; simpl.
  - rewrite app_nil_r. destruct q; reflexivity.
  - rewrite Hname, IH. simpl. rewrite <- app_assoc. reflexivity.
Qed.

Lemma appendTagsNot_app (m : gmap string Tag) (pre rest : list string)
    (tags : list Tag) (q : SearchQuery) :
  Forall2 (fun name tag => m !! name = Some tag) pre tags ->
  appendTagsNot m (pre ++ rest) q
  = appendTagsNot m rest (setTagsNot (TagsNot q ++ tags) q).
Proof.
  intros Hres. revert q.
  induction Hres as [|name tag pre tags Hname _ IH]; intros q; simpl.
  - rewrite app_nil_r. destruct q; reflexivity.
  - rewrite Hname, IH. simpl. rewrite <- app_assoc. reflexivity.
Qed.

(** X16: on a query without tag constraints, [WithTagsAnyOf] and
    [WithoutTagsAnyOf] fail at the first name that is not the name of a tag,
    with "Tag '<name>' not found"; the tags resolved before it stay in
    [TagsAny] (respectively [TagsNot]). *)
Theorem tag_not_found (pre post : list string) (bad : string)
    (tags : list Tag) (wc : WorkspaceClient) (q : SearchQuery) (w w1 : World)
    (m : gmap string Tag) :
  TagsAny q = [] ->
  TagsNot q = [] ->
  GetTagsByName wc w = (w1, Ok m) ->
  Forall2 (fun name tag => m !! name = Some tag) pre tags ->
  m !! bad = None ->
  WithTagsAnyOfMutator (pre ++ bad :: post) wc q w
  = (w1, setTagsAny tags q, Some ("Tag '" ++ bad ++ "' not found"))
  /\ WithoutTagsAnyOfMutator (pre ++ bad :: post) wc q w
     = (w1, setTagsNot tags q, Some ("Tag '" ++ bad ++ "' not found")).
Proof.
  intros Hany Hnot Hget Hres Hbad.
  unfold WithTagsAnyOfMutator, WithoutTagsAnyOfMutator.
  rewrite Hany, Hnot, Hget. simpl.
  rewrite (appendTagsAny_app m pre (bad :: post) tags q Hres), Hany.
  rewrite (appendTagsNot_app m pre (bad :: post) tags q Hres), Hnot.
  simpl. rewrite Hbad. split; reflexivity.
Qed.

End LookupFacts.

Section SingularFacts.
Context `{Collaborators}.

Lemma mutatorOf_set (m : SingularMutator) (wc : WorkspaceClient)
    (q : SearchQuery) (w : World) :
  fieldIsSet m q = true ->
  mutatorOf m wc q w = (w, q, Some ("Multiple clauses set " ++ fieldName m)).
Proof.
  destruct m; simpl; intros Hset; apply bool_decide_eq_true in Hset;
    destruct Hset as [v Hv];
    unfold DueInDaysMutator, DueInAtLeastDaysMutator, DueInAtMostDaysMutator,
      OnlyIncompleteMutator, OnlyCompleteMutator, WithoutDueMutator;
    rewrite Hv; reflexivity.
Qed.

Lemma mutatorOf_unset (m : SingularMutator) (wc : WorkspaceClient)
    (q : SearchQuery) (w : World) :
  fieldIsSet m q = false ->
  exists q', mutatorOf m wc q w = (w, q', None)
             /\ forall m', fieldIsSet m' q'
                           = bool_decide (fieldName m' = fieldName m)
                             || fieldIsSet m' q.
Proof.
  destruct m; simpl; intros Hset; apply bool_decide_eq_false in Hset;
    unfold DueInDaysMutator, DueInAtLeastDaysMutator, DueInAtMostDaysMutator,
      OnlyIncompleteMutator, OnlyCompleteMutator, WithoutDueMutator;
    match goal with
    | Hn : ~ is_Some (?f q) |- _ =>
        destruct (f q) eqn:Hq; [exfalso; apply Hn; eauto|]
    end;
    (eexists; split; [reflexivity|]); intros m'; destruct m'; reflexivity.
Qed.

Lemma runMutators_singular (ms : list SingularMutator) (wc : WorkspaceClient)
    (i : nat) (q : SearchQuery) (s : ExecState) (seen : list string) :
  (forall m, fieldIsSet m q = true <-> fieldName m ∈ seen) ->
  (isOk (snd (runMutators wc (map mutatorOf ms) i q s))
   <-> NoDup (map fieldName ms) /\ Forall (fun m => fieldName m ∉ seen) ms).
Proof.
  revert i q s seen. induction ms as [|m ms IH]; intros i q s seen Hinv.
  - simpl. split; [intros _; split; constructor|intros _; exact I].
  - simpl runMutators. unfold bind, callMutator.
    destruct (fieldIsSet m q) eqn:Hset.
    + rewrite (mutatorOf_set m wc q (fst s) Hset). simpl.
      split; [contradiction|]. intros [_ Hall].
      apply Forall_cons in Hall as [Hm _]. apply Hm, Hinv. exact Hset.
    + destruct (mutatorOf_unset m wc q (fst s) Hset) as (q' & -> & Hq').
      rewrite (IH (S i) q' _ (fieldName m :: seen)).
      * simpl map. rewrite NoDup_cons, Forall_cons, !Forall_forall.
        rewrite list_elem_of_fmap.
        assert (Hm : fieldName m ∉ seen).
        { intros Hin. apply Hinv in Hin. congruence. }
        split.
        -- intros [Hnd Hall]. repeat split; auto.
           ++ intros (m' & Heq & Hin). apply (Hall m' Hin).
              rewrite <- Heq. apply elem_of_cons. auto.
           ++ intros m' Hin Hseen. apply (Hall m' Hin).
              apply elem_of_cons. auto.
        -- intros [[Hnotin Hnd] [_ Hall]]. split; [exact Hnd|].
           intros m' Hin Hseen. apply elem_of_cons in Hseen as [Heq|Hseen].
           ++ apply Hnotin. exists m'. auto.
           ++ exact (Hall m' Hin Hseen).
      * intros m'. rewrite Hq', orb_true_iff, bool_decide_eq_true, elem_of_cons.
        rewrite Hinv. reflexivity.
Qed.

(** X17: a rule whose query mutators are mutators of singular-valued fields
    builds its query without error exactly when no two of them set the same
    field ([OnlyIncomplete] and [OnlyComplete] set the same one). *)
Theorem singular_mutators_succeed_iff_distinct (ms : list SingularMutator)
    (wc : WorkspaceClient) (s : ExecState) :
  isOk (snd (runMutators wc (map mutatorOf ms) 0 emptyQuery s))
  <-> NoDup (map fieldName ms).
Proof.
  rewrite (runMutators_singular ms wc 0 emptyQuery s []).
  - split; [intros [Hnd _]; exact Hnd|].
    intros Hnd. split; [exact Hnd|].
    apply Forall_forall. intros m _ Hin. inversion Hin.
  - intros m. split.
    + destruct m; discriminate.
    + intros Hin. inversion Hin.
Qed.

(** X18: mutators of different singular-valued fields do not interfere:
    run in either order from the same query, each has the outcome it has on
    its own, and both orders end in the same query. *)
Theorem singular_mutators_commute (m1 m2 : SingularMutator)
    (wc : WorkspaceClient) (q : SearchQuery) (w : World) :
  fieldName m1 <> fieldName m2 ->
  exists q12,
    mutatorOf m2 wc (snd (fst (mutatorOf m1 wc q w))) w
    = (w, q12, snd (mutatorOf m2 wc q w))
    /\ mutatorOf m1 wc (snd (fst (mutatorOf m2 wc q w))) w
       = (w, q12, snd (mutatorOf m1 wc q w)).
Proof.
  intros Hne.
  destruct m1, m2; try (exfalso; apply Hne; reflexivity); simpl;
    unfold DueInDaysMutator, DueInAtLeastDaysMutator, DueInAtMostDaysMutator,
      OnlyIncompleteMutator, OnlyCompleteMutator, WithoutDueMutator;
    destruct (DueOn q) eqn:Hq1; destruct (DueAfter q) eqn:Hq2;
    destruct (DueBefore q) eqn:Hq3; destruct (Completed q) eqn:Hq4;
    destruct (Due q) eqn:Hq5; simpl;
    rewrite ?Hq1, ?Hq2, ?Hq3, ?Hq4, ?Hq5;
    eexists; split; reflexivity.
Qed.

End SingularFacts.

(** ** More about the executor *)

Section ExecMoreFacts.
Context `{Collaborators}.

Lemma runGates_log (wc : WorkspaceClient) (gs : list gate) (i : nat)
    (s : ExecState) :
  exists k, k <= length gs
            /\ snd (fst (runGates wc gs i s))
               = (snd s ++ map EvGate (seq i k))%list.
Proof.
  revert i s. induction gs as [|g gs IH]; intros i s.
  - exists 0. simpl. rewrite app_nil_r. split; [lia|reflexivity].
  - simpl runGates. unfold bind.
    destruct (call (EvGate i) (g wc) s) as [s1 [[|]|err]] eqn:Hcall;
      apply call_inv in Hcall as [_ Hlog].
    + destruct (IH (S i) s1) as (k & Hk & Hlogk).
      exists (S k). simpl length. split; [lia|].
      rewrite Hlogk, Hlog, <- app_assoc. reflexivity.
    + exists 1. simpl. split; [lia|exact Hlog].
    + exists 1. simpl. split; [lia|exact Hlog].
Qed.

Lemma callMutator_inv (ev : Event)
    (mut : World -> World * SearchQuery * option Err) (s s1 : ExecState)
    (r : Result SearchQuery) :
  callMutator ev mut s = (s1, r) -> snd s1 = (snd s ++ [ev])%list.
Proof.
  unfold callMutator. destruct (mut (fst s)) as [[w' q'] [err|]];
    intros Heq; injection Heq as <- _; reflexivity.
Qed.

Lemma runMutators_log (wc : WorkspaceClient) (muts : list queryMutator)
    (i : nat) (q : SearchQuery) (s : ExecState) :
  exists k, k <= length muts
            /\ snd (fst (runMutators wc muts i q s))
               = (snd s ++ map EvMutator (seq i k))%list.
Proof.
  revert i q s. induction muts as [|mut muts IH]; intros i q s.
  - exists 0. simpl. rewrite app_nil_r. split; [lia|reflexivity].
  - simpl runMutators. unfold bind.
    destruct (callMutator (EvMutator i) (mut wc q) s) as [s1 [q'|err]] eqn:Hcall;
      apply callMutator_inv in Hcall as Hlog.
    + destruct (IH (S i) q' s1) as (k & Hk & Hlogk).
      exists (S k). simpl length. split; [lia|].
      rewrite Hlogk, Hlog, <- app_assoc. reflexivity.
    + exists 1. simpl. split; [lia|exact Hlog].
Qed.

Lemma runFilters_log (wc : WorkspaceClient) (q : SearchQuery) (task : Task)
    (filters : list taskFilter) (i : nat) (s : ExecState) :
  exists evs, snd (fst (runFilters wc q task filters i s)) = (snd s ++ evs)%list
              /\ Forall isFilterEvent evs.
Proof.
  revert i s. induction filters as [|filter filters IH]; intros i s.
  - exists []. simpl. rewrite app_nil_r. split; [reflexivity|constructor].
  - simpl runFilters. unfold bind.
    destruct (call (EvFilter i task) (filter wc q task) s)
      as [s1 [[|]|err]] eqn:Hcall; apply call_inv in Hcall as [_ Hlog].
    + destruct (IH (S i) s1) as (evs & Hlogs & Hall).
      exists (EvFilter i task :: evs). rewrite Hlogs, Hlog, <- app_assoc.
      split; [reflexivity|]. constructor; [exact I|exact Hall].
    + exists [EvFilter i task]. split; [exact Hlog|].
      constructor; [exact I|constructor].
    + exists [EvFilter i task]. split; [exact Hlog|].
      constructor; [exact I|constructor].
Qed.

Lemma filterTasks_log (wc : WorkspaceClient) (q : SearchQuery)
    (filters : list taskFilter) (tasks : list Task) (s : ExecState) :
  exists evs, snd (fst (filterTasks wc q filters tasks s)) = (snd s ++ evs)%list
              /\ Forall isFilterEvent evs.
Proof.
  revert s. induction tasks as [|task tasks IH]; intros s.
  - exists []. simpl. rewrite app_nil_r. split; [reflexivity|constructor].
  - simpl filterTasks. unfold bind.
    destruct (runFilters_log wc q task filters 0 s) as (evs1 & Hlog1 & Hall1).
    destruct (runFilters wc q task filters 0 s) as [s1 [included|err]];
      simpl in Hlog1.
    + destruct (IH s1) as (evs2 & Hlog2 & Hall2).
      destruct (filterTasks wc q filters tasks s1) as [s2 [rest|err]];
        simpl in Hlog2 |- *;
        exists (evs1 ++ evs2)%list; rewrite Hlog2, Hlog1, <- app_assoc;
        (split; [reflexivity|apply Forall_app; auto]).
    + exists evs1. split; [exact Hlog1|exact Hall1].
Qed.

Lemma runTasks_log (wc : WorkspaceClient) (acts : list taskActor)
    (tasks : list Task) (s : ExecState) :
  exists evs, snd (fst (runTasks wc acts tasks s)) = (snd s ++ evs)%list
              /\ Forall isActorEvent evs.
Proof.
  destruct (actorRun_log _ _ _ _ _ (runTasks_run wc acts tasks s))
    as (k & _ & Hlog & _).
  eexists. split; [exact Hlog|].
  apply Forall_forall. intros ev Hin.
  apply list_elem_of_fmap in Hin as ([[i act] task] & -> & _). exact I.
Qed.

(** X19: whatever happens in an iteration, the calls that [exec] makes
    follow one pattern: the client getter, then gates in declaration order,
    then query mutators in declaration order, then at most one search, then
    filter calls, then actor calls; no stage runs before an earlier stage
    has finished, and none runs twice out of turn. *)
Theorem exec_call_order (p : periodic) (c : Client) (s : ExecState) :
  exists evs, snd (fst (exec p c s)) = (snd s ++ evs)%list
              /\ iterationLog p evs.
Proof.
  unfold exec, bind.
  destruct (call EvGetClient (getWorkspaceClient p c) s) as [s1 [wc|err]] eqn:Hget;
    apply call_inv in Hget as [_ Hlog1].
  2:{ exists [EvGetClient]. split; [exact Hlog1|].
      exists 0, 0, [], [], []. simpl.
      repeat split; auto with arith; constructor. }
  destruct (runGates_log wc (gates p) 0 s1) as (kg & Hkg & Hlogg).
  destruct (runGates wc (gates p) 0 s1) as [s2 [ok|err]]; simpl in Hlogg.
  2:{ exists (EvGetClient :: map EvGate (seq 0 kg)). simpl.
      rewrite Hlogg, Hlog1, <- app_assoc. split; [reflexivity|].
      exists kg, 0, [], [], []. simpl. rewrite app_nil_r.
      repeat split; auto with arith; constructor. }
  destruct ok; cbv beta iota delta [negb].
  2:{ exists (EvGetClient :: map EvGate (seq 0 kg)). simpl.
      rewrite Hlogg, Hlog1, <- app_assoc. split; [reflexivity|].
      exists kg, 0, [], [], []. simpl. rewrite app_nil_r.
      repeat split; auto with arith; constructor. }
  destruct (runMutators_log wc (queryMutators p) 0 emptyQuery s2)
    as (km & Hkm & Hlogm).
  destruct (runMutators wc (queryMutators p) 0 emptyQuery s2)
    as [s3 [q|err]]; simpl in Hlogm.
  2:{ exists (EvGetClient :: map EvGate (seq 0 kg) ++ map EvMutator (seq 0 km))%list.
      simpl. rewrite Hlogm, Hlogg, Hlog1, <- !app_assoc.
      split; [reflexivity|].
      exists kg, km, [], [], []. simpl. rewrite app_nil_r.
      repeat split; auto; constructor. }
  destruct (call EvSearch (Search wc q) s3) as [s4 [tasks|err]] eqn:Hsearch;
    apply call_inv in Hsearch as [_ Hlogs].
  2:{ exists (EvGetClient :: map EvGate (seq 0 kg) ++ map EvMutator (seq 0 km)
                ++ [EvSearch])%list.
      simpl. rewrite Hlogs, Hlogm, Hlogg, Hlog1, <- !app_assoc.
      split; [reflexivity|].
      exists kg, km, [EvSearch], [], []. simpl.
      repeat split; auto; constructor. }
  destruct (filterTasks_log wc q (taskFilters p) tasks s4) as (fl & Hlogf & Hfl).
  destruct (filterTasks wc q (taskFilters p) tasks s4)
    as [s5 [filtered|err]]; simpl in Hlogf.
  2:{ exists (EvGetClient :: map EvGate (seq 0 kg) ++ map EvMutator (seq 0 km)
                ++ [EvSearch] ++ fl)%list.
      simpl. rewrite Hlogf, Hlogs, Hlogm, Hlogg, Hlog1, <- !app_assoc.
      split; [reflexivity|].
      exists kg, km, [EvSearch], fl, []. simpl. rewrite app_nil_r.
      repeat split; auto; constructor. }
  destruct (runTasks_log wc (taskActors p) filtered s5) as (ac & Hloga & Hac).
  exists (EvGetClient :: map EvGate (seq 0 kg) ++ map EvMutator (seq 0 km)
            ++ [EvSearch] ++ fl ++ ac)%list.
  simpl. rewrite Hloga, Hlogf, Hlogs, Hlogm, Hlogg, Hlog1, <- !app_assoc.
  split; [reflexivity|].
  exists kg, km, [EvSearch], fl, ac. simpl. repeat split; auto.
Qed.

Lemma runFilters_answers (wc : WorkspaceClient) (q : SearchQuery) (task : Task)
    (filters : list taskFilter) (keeps : list (Task -> bool)) :
  Forall2 (answers wc q) filters keeps ->
  forall i s, exists log,
      runFilters wc q task filters i s
      = ((fst s, log), Ok (forallb (fun keep => keep task) keeps)).
Proof.
  induction 1 as [|filter keep filters keeps Hans _ IH]; intros i s.
  - exists (snd s). destruct s; reflexivity.
  - simpl runFilters. unfold bind, call. rewrite (Hans task (fst s)). simpl.
    destruct (keep task).
    + destruct (IH (S i) (fst s, (snd s ++ [EvFilter i task])%list)) as (log & ->).
      exists log. reflexivity.
    + eexists. reflexivity.
Qed.

(** X20: when every filter of the rule answers by a test on the task alone,
    the filter phase succeeds, leaves the world alone, and keeps exactly the
    tasks that pass every test, in the order of the search result. *)
Theorem filterTasks_keeps_accepted (wc : WorkspaceClient) (q : SearchQuery)
    (filters : list taskFilter) (keeps : list (Task -> bool))
    (tasks : list Task) (s : ExecState) :
  Forall2 (answers wc q) filters keeps ->
  exists log,
    filterTasks wc q filters tasks s
    = ((fst s, log),
       Ok (List.filter (fun task => forallb (fun keep => keep task) keeps)
                       tasks)).
Proof.
  intros Hans. revert s. induction tasks as [|task tasks IH]; intros s.
  - exists (snd s). destruct s; reflexivity.
  - simpl filterTasks. unfold bind.
    destruct (runFilters_answers wc q task filters keeps Hans 0 s) as (log1 & ->).
    destruct (IH (fst s, log1)) as (log2 & ->). simpl.
    exists log2. destruct (forallb (fun keep => keep task) keeps); reflexivity.
Qed.

(** X21: [exec] returns the first error of an iteration and stops there:
    the error of the client getter; with the gates passed, the error of a
    query mutator, and then no search is made; the error of the search; the
    error of a filter, and then no actor has run on any task, not even on the
    tasks that the filters had already let through. *)
Theorem exec_returns_first_error (p : periodic) (c : Client) (s0 : ExecState) :
  (forall s1 err,
      call EvGetClient (getWorkspaceClient p c) s0 = (s1, Fail err) ->
      exec p c s0 = (s1, Fail err))
  /\ (forall s1 wc s2,
        call EvGetClient (getWorkspaceClient p c) s0 = (s1, Ok wc) ->
        runGates wc (gates p) 0 s1 = (s2, Ok true) ->
        (forall s3 err,
            runMutators wc (queryMutators p) 0 emptyQuery s2 = (s3, Fail err) ->
            exec p c s0 = (s3, Fail err)
            /\ exists k, snd s3 = (snd s2 ++ map EvMutator (seq 0 k))%list)
        /\ (forall s3 q,
              runMutators wc (queryMutators p) 0 emptyQuery s2 = (s3, Ok q) ->
              (forall s4 err,
                  call EvSearch (Search wc q) s3 = (s4, Fail err) ->
                  exec p c s0 = (s4, Fail err))
              /\ (forall s4 tasks s5 err,
                    call EvSearch (Search wc q) s3 = (s4, Ok tasks) ->
                    filterTasks wc q (taskFilters p) tasks s4 = (s5, Fail err) ->
                    exec p c s0 = (s5, Fail err)
                    /\ exists fl, snd s5 = (snd s4 ++ fl)%list
                                  /\ Forall isFilterEvent fl))).
Proof.
  split.
  - intros s1 err Hget. unfold exec, bind. rewrite Hget. reflexivity.
  - intros s1 wc s2 Hget Hgates. split.
    + intros s3 err Hmut. split.
      * unfold exec, bind. rewrite Hget, Hgates. simpl. rewrite Hmut. reflexivity.
      * destruct (runMutators_log wc (queryMutators p) 0 emptyQuery s2)
          as (k & _ & Hlog).
        rewrite Hmut in Hlog. exists k. exact Hlog.
    + intros s3 q Hmut. split.
      * intros s4 err Hsearch. unfold exec, bind.
        rewrite Hget, Hgates. simpl. rewrite Hmut, Hsearch. reflexivity.
      * intros s4 tasks s5 err Hsearch Hfilter. split.
        -- unfold exec, bind. rewrite Hget, Hgates. simpl.
           rewrite Hmut, Hsearch, Hfilter. reflexivity.
        -- destruct (filterTasks_log wc q (taskFilters p) tasks s4)
             as (fl & Hlog & Hfl).
           rewrite Hfilter in Hlog. exists fl. split; [exact Hlog|exact Hfl].
Qed.

Lemma runFilters_true_app (wc : WorkspaceClient) (q : SearchQuery) (task : Task)
    (fs1 fs2 : list taskFilter) (i : nat) (s s1 : ExecState) :
  runFilters wc q task fs1 i s = (s1, Ok true) ->
  runFilters wc q task (fs1 ++ fs2) i s
  = runFilters wc q task fs2 (i + length fs1) s1
  /\ snd s1 = (snd s ++ map (fun j => EvFilter j task) (seq i (length fs1)))%list.
Proof.
  revert i s. induction fs1 as [|f fs1 IH]; intros i s Hrun.
  - injection Hrun as <-. simpl. rewrite Nat.add_0_r, app_nil_r. split; reflexivity.
  - simpl in Hrun |- *. unfold bind in Hrun |- *.
    destruct (call (EvFilter i task) (f wc q task) s) as [s' [[|]|err]] eqn:Hcall;
      try discriminate Hrun.
    destruct (IH (S i) s' Hrun) as [Happ Hlog].
    apply call_inv in Hcall as [_ Hlog'].
    rewrite Happ, Hlog, Hlog', <- app_assoc, Nat.add_succ_r.
    split; reflexivity.
Qed.

(** X22: the filters of a rule run on a task in declaration order, and the
    first filter that does not say yes settles the task: when it says no the
    task is left out, when it fails the filter chain fails with its error;
    in both cases the later filters are not called for that task. *)
Theorem filters_short_circuit (wc : WorkspaceClient) (q : SearchQuery)
    (task : Task) (fs1 fs2 : list taskFilter) (f : taskFilter)
    (s s1 : ExecState) (w2 : World) (r : Result bool) :
  runFilters wc q task fs1 0 s = (s1, Ok true) ->
  f wc q task (fst s1) = (w2, r) ->
  r <> Ok true ->
  runFilters wc q task (fs1 ++ f :: fs2) 0 s
  = ((w2, (snd s ++ map (fun j => EvFilter j task)
                        (seq 0 (S (length fs1))))%list),
     match r with
     | Fail err => Fail err
     | Ok _ => Ok false
     end).
Proof.
  intros Hpre Hf Hr.
  destruct (runFilters_true_app wc q task fs1 (f :: fs2) 0 s s1 Hpre) as [-> Hlog].
  simpl runFilters. unfold bind, call. rewrite Hf.
  rewrite Hlog, seq_S, map_app, <- !app_assoc.
  destruct r as [[|]|err]; [contradiction|reflexivity|reflexivity].
Qed.

End ExecMoreFacts.

(** ** The paginated listings *)

Section ListingFacts.
Context `{Transport}.
Import ClientImpl.

Lemma fetchAll_served {A : Type}
    (get : option string -> M World (list A * option string))
    (values : option string) (w w' : World) (pages : list (list A))
    (r : Result unit) :
  served get values w pages w' r ->
  forall fuel ret,
    length pages < fuel ->
    fetchAll fuel get values ret w
    = Some (w', match r with
                | Ok _ => Ok (ret ++ concat pages)%list
                | Fail err => Fail err
                end).
Proof.
  induction 1 as [values w w' data Hget
                 |values w w1 w' data offset pages r Hget _ IH
                 |values w w' err Hget]; intros fuel ret Hfuel;
    (destruct fuel as [|fuel]; [simpl in Hfuel; lia|]); simpl fetchAll;
    rewrite Hget.
  - simpl. rewrite app_nil_r. reflexivity.
  - rewrite IH by (simpl in Hfuel; lia).
    destruct r; [|reflexivity]. simpl. rewrite <- app_assoc. reflexivity.
  - reflexivity.
Qed.

Lemma fetchAll_endless {A : Type}
    (get : option string -> M World (list A * option string)) :
  (forall values w, exists w' data offset,
        get values w = (w', Ok (data, Some offset))) ->
  forall fuel values ret w, fetchAll fuel get values ret w = None.
Proof.
  intros Hmore. induction fuel as [|fuel IH]; intros values ret w; [reflexivity|].
  simpl. destruct (Hmore values w) as (w' & data & offset & ->). apply IH.
Qed.

(** X23: when the remote serves finitely many pages, [GetSections] and
    [GetTasksFromSection] return, given at least one request more than
    there are pages: the [Data] of all pages in the order served when the
    last page names no next page; the error alone, without the pages read
    before it, when a request fails. *)
Theorem listings_return_all_pages (wc : WorkspaceClient) (fuel : nat) :
  (forall project w w' pages r,
      served (getSectionsPage wc ("projects/" ++ ProjectGID project ++ "/sections"))
             None w pages w' r ->
      length pages < fuel ->
      GetSections fuel wc project w
      = Some (w', match r with
                  | Ok _ => Ok (concat pages)
                  | Fail err => Fail err
                  end))
  /\ (forall section w w' pages r,
        served (getTasksPage wc ("sections/" ++ GID section ++ "/tasks"))
               None w pages w' r ->
        length pages < fuel ->
        GetTasksFromSection fuel wc section w
        = Some (w', match r with
                    | Ok _ => Ok (concat pages)
                    | Fail err => Fail err
                    end)).
Proof.
  split; intros ? w w' pages r Hserved Hfuel;
    [unfold GetSections|unfold GetTasksFromSection];
    rewrite (fetchAll_served _ _ _ _ _ _ Hserved fuel [] Hfuel); reflexivity.
Qed.

(** X24: the listings have no page limit of their own: against a remote
    whose every page names a next page, [GetSections] and
    [GetTasksFromSection] do not return, whatever the number of requests
    allowed. *)
Theorem listings_never_return_on_endless_pages (wc : WorkspaceClient) :
  (forall project,
      (forall values w, exists w' data offset,
            getSectionsPage wc ("projects/" ++ ProjectGID project ++ "/sections")
                            values w
            = (w', Ok (data, Some offset))) ->
      forall fuel w, GetSections fuel wc project w = None)
  /\ (forall section,
        (forall values w, exists w' data offset,
              getTasksPage wc ("sections/" ++ GID section ++ "/tasks") values w
              = (w', Ok (data, Some offset))) ->
        forall fuel w, GetTasksFromSection fuel wc section w = None).
Proof.
  split; intros ? Hmore fuel w;
    [unfold GetSections|unfold GetTasksFromSection];
    apply fetchAll_endless; exact Hmore.
Qed.

End ListingFacts.

(** ** The stages on notes and on sections *)

Section TrimFacts.

Lemma cutPrefix_app (prefix rest : string) :
  cutPrefix prefix (prefix ++ rest) = Some rest.
Proof.
  induction prefix as [|c prefix IH]; [destruct rest; reflexivity|].
  simpl. rewrite Ascii.eqb_refl. exact IH.
Qed.

Lemma length_append (s1 s2 : string) :
  String.length (s1 ++ s2) = String.length s1 + String.length s2.
Proof.
  induction s1 as [|c s1 IH]; [reflexivity|]. simpl. rewrite IH. reflexivity.
Qed.

Lemma cutSuffix_app (rest suffix : string) :
  cutSuffix (rest ++ suffix) suffix = Some rest.
Proof.
  induction rest as [|c rest IH].
  - simpl. destruct suffix; simpl; rewrite ?Ascii.eqb_refl, ?String.eqb_refl;
      reflexivity.
  - change (cutSuffix (String c rest ++ suffix) suffix)
      with (if String.eqb (String c (rest ++ suffix)) suffix then Some ""
            else option_map (String c) (cutSuffix (rest ++ suffix) suffix)).
    replace (String.eqb (String c (rest ++ suffix)) suffix) with false.
    + rewrite IH. reflexivity.
    + symmetry. apply String.eqb_neq. intros Heq.
      apply (f_equal String.length) in Heq. simpl in Heq.
      rewrite length_append in Heq. lia.
Qed.

(** Stripping the wrapper that the serializer adds gives the inside back. *)
Lemma Trim_wrapper (prefix body suffix : string) :
  TrimSuffix (TrimPrefix (prefix ++ body ++ suffix) prefix) suffix = body.
Proof.
  unfold TrimPrefix. rewrite cutPrefix_app.
  unfold TrimSuffix. rewrite cutSuffix_app. reflexivity.
Qed.

End TrimFacts.

Section NotesFacts.
Context `{Notes}.

(** X25: [FixUnlinkedURL] linkifies the notes tree of the task in place;
    when the linkified tree is serialized as
    [<html><head></head>] + body + [</html>], it sends one update, for the
    [GID] of the task, whose notes are the body alone; when the tree cannot
    be serialized it returns that error and sends no update. *)
Theorem FixUnlinkedURL_sends_body (wc : WorkspaceClient) (t : Task) (w : World) :
  let fixed := Html.fixUnlinkedURL (ParsedHTMLNotes w t) in
  let w1 := setParsedHTMLNotes t fixed w in
  ParsedHTMLNotes w1 t = fixed ->
  (forall body,
      RenderNode fixed = Ok ("<html><head></head>" ++ body ++ "</html>") ->
      FixUnlinkedURLActor wc t w = UpdateTask wc (TaskID t) body w1)
  /\ (forall err,
        RenderNode fixed = Fail err ->
        FixUnlinkedURLActor wc t w = (w1, Fail err)).
Proof.
  intros fixed w1 Hstore. unfold FixUnlinkedURLActor.
  fold fixed. fold w1. rewrite Hstore. split.
  - intros body ->. rewrite Trim_wrapper. reflexivity.
  - intros err ->. reflexivity.
Qed.

End NotesFacts.

Section SectionFilterFacts.
Context `{Collaborators}.

Lemma sectionFilter_some (wc : WorkspaceClient) (q : SearchQuery) (t : Task)
    (s : ExecState) :
  is_Some (AssigneeSection t) ->
  runFilters wc q t [InMyTasksSectionsFilter] 0 s
  = ((fst s, (snd s ++ [EvFilter 0 t])%list), Ok (inRequestedSections q t)).
Proof.
  intros [asec Hsec]. simpl. unfold bind, call, InMyTasksSectionsFilter,
    inRequestedSections. rewrite Hsec. simpl.
  destruct (existsb _ _); reflexivity.
Qed.

Lemma filterTasks_cons (wc : WorkspaceClient) (q : SearchQuery)
    (filters : list taskFilter) (t : Task) (tasks : list Task) (s : ExecState) :
  filterTasks wc q filters (t :: tasks) s
  = match runFilters wc q t filters 0 s with
    | (s1, Ok included) =>
        match filterTasks wc q filters tasks s1 with
        | (s2, Ok rest) => (s2, Ok (if included then t :: rest else rest))
        | (s2, Fail err) => (s2, Fail err)
        end
    | (s1, Fail err) => (s1, Fail err)
    end.
Proof. reflexivity. Qed.

(** X26: in a rule whose only filter is the backup filter of
    [InMyTasksSections], the filter phase keeps the tasks whose assignee
    section has the [GID] of a requested section, in order, as long as every
    task found has an assignee section; the first task found without one
    makes the phase fail with "missing assignee: <task>", whatever the
    tasks before it. *)
Theorem section_filter_phase (wc : WorkspaceClient) (q : SearchQuery)
    (tasks : list Task) (s : ExecState) :
  (Forall (fun t => is_Some (AssigneeSection t)) tasks ->
   exists log,
     filterTasks wc q [InMyTasksSectionsFilter] tasks s
     = ((fst s, log), Ok (List.filter (inRequestedSections q) tasks)))
  /\ (forall pre t post,
        tasks = (pre ++ t :: post)%list ->
        Forall (fun t => is_Some (AssigneeSection t)) pre ->
        AssigneeSection t = None ->
        exists log,
          filterTasks wc q [InMyTasksSectionsFilter] tasks s
          = ((fst s, log), Fail ("missing assignee: " ++ TaskString t))).
Proof.
  split.
  - intros Hall. revert s.
    induction Hall as [|t tasks Ht _ IH]; intros s.
    + exists (snd s). destruct s; reflexivity.
    + rewrite filterTasks_cons, (sectionFilter_some wc q t s Ht).
      destruct (IH (fst s, (snd s ++ [EvFilter 0 t])%list)) as (log & ->).
      exists log. simpl. destruct (inRequestedSections q t); reflexivity.
  - intros pre t post -> Hpre Hnone. revert s.
    induction Hpre as [|t' pre Ht' _ IH]; intros s.
    + simpl app. rewrite filterTasks_cons. simpl runFilters.
      unfold bind, call, InMyTasksSectionsFilter. rewrite Hnone.
      eexists. reflexivity.
    + simpl app. rewrite filterTasks_cons, (sectionFilter_some wc q t' s Ht').
      destruct (IH (fst s, (snd s ++ [EvFilter 0 t'])%list)) as (log & ->).
      exists log. reflexivity.
Qed.

End SectionFilterFacts.

(** ** The further properties at work in the concrete worlds *)

Module MoreDemoFacts.
Import Demo DemoCalendar DemoExec DemoTransport.
#[local] Existing Instance demoDomain.
#[local] Existing Instance demoCollaborators.
#[local] Existing Instance demoCalendar.
#[local] Existing Instance demoTransport.

Lemma timeBefore_order_demo :
  timeBefore (mkTime 9 0 0 0) (mkTime 17 0 0 0) = true
  /\ timeBefore (mkTime 17 0 0 0) (mkTime 9 0 0 0) = false.
Proof.
  destruct timeBefore_strict_total_order as (_ & Htrans & Hasym & _).
  split.
  - apply (Htrans _ (mkTime 12 0 0 0)); reflexivity.
  - apply Hasym. reflexivity.
Defined.

Lemma timeBefore_chronological_demo :
  timeBefore (mkTime 9 30 0 0) (mkTime 17 0 0 0) = true
  <-> (nanosOfDay (mkTime 9 30 0 0) < nanosOfDay (mkTime 17 0 0 0))%Z.
Proof.
  apply (timeBefore_chronological (mkTime 9 30 0 0) (mkTime 17 0 0 0));
    unfold validTime; simpl; lia.
Defined.

Lemma WhenBetween_empty_window_demo :
  WhenBetweenGate "UTC" "09:00:00" "09:00:00" tt at9 = (at9, Ok false).
Proof.
  apply (@WhenBetween_empty_window demoDomain demoCollaborators
           "UTC" "09:00:00" "UTC" (mkTime 9 0 0 0) tt at9); reflexivity.
Defined.

Lemma WhenBetween_swap_demo :
  exists b, WhenBetweenGate "UTC" "09:00:00" "17:00:00" tt at12 = (at12, Ok b)
            /\ WhenBetweenGate "UTC" "17:00:00" "09:00:00" tt at12
               = (at12, Ok (negb b)).
Proof.
  apply (@WhenBetween_swap_complements demoDomain demoCollaborators
           "UTC" "09:00:00" "17:00:00" "UTC"
           (mkTime 9 0 0 0) (mkTime 17 0 0 0) tt at12);
    try reflexivity; discriminate.
Defined.

Lemma WhenBetween_errors_demo :
  WhenBetweenGate "Mars" "09:00:00" "17:00:00" tt at9
  = (at9, Fail "unknown time zone")
  /\ WhenBetweenGate "UTC" "9 am" "17:00:00" tt at9
     = (at9, Fail "parsing time: wrong length").
Proof.
  destruct (@WhenBetween_errors demoDomain demoCollaborators
              "Mars" "09:00:00" "17:00:00" tt at9) as (_ & Htz & _).
  destruct (@WhenBetween_errors demoDomain demoCollaborators
              "UTC" "9 am" "17:00:00" tt at9) as (_ & _ & Hstart & _).
  split.
  - apply Htz. reflexivity.
  - apply (Hstart "UTC"); reflexivity.
Defined.

Lemma WhenDayOfWeek_membership_demo :
  WhenDayOfWeekGate "UTC" [Monday; Wednesday] tt at9
  = WhenDayOfWeekGate "UTC" [Wednesday; Monday; Monday] tt at9.
Proof.
  apply (proj2 (@WhenDayOfWeek_membership demoDomain demoCollaborators
                  demoCalendar "UTC" [Monday; Wednesday]
                  [Wednesday; Monday; Monday] tt at9)).
  intros d. rewrite !elem_of_cons, elem_of_nil. tauto.
Defined.

Lemma WeekDays_WeekendDays_demo :
  exists b, WhenDayOfWeekGate "UTC" WeekDays tt at9 = (at9, Ok b)
            /\ WhenDayOfWeekGate "UTC" WeekendDays tt at9 = (at9, Ok (negb b)).
Proof.
  apply (@WeekDays_WeekendDays_partition demoDomain demoCollaborators
           demoCalendar "UTC" "UTC" tt at9).
  reflexivity.
Defined.

Lemma GetSectionsByName_lookup_demo :
  exists m, GetSectionsByName tt "my tasks" at9 = (at9, Ok m)
            /\ (forall name, m !! name = lastNamed name demoSections)
            /\ (NoDup (map Name demoSections) ->
                (forall s, s ∈ demoSections -> m !! Name s = Some s)
                /\ size m = length demoSections).
Proof.
  apply (@GetSectionsByName_lookup demoDomain demoCollaborators
           tt "my tasks" at9 at9 demoSections).
  reflexivity.
Defined.

Lemma GetSectionByName_missing_demo :
  GetSectionByName tt "my tasks" "Nowhere" at9
  = (at9, Fail "Section 'Nowhere' not found").
Proof.
  exact (@GetSectionByName_result demoDomain demoCollaborators
           tt "my tasks" "Nowhere" at9 at9 (Ok demoSections) eq_refl).
Defined.

Lemma InMyTasksSections_resolves_demo :
  InMyTasksSectionsMutator ["Later"; "Today"] tt emptyQuery at9
  = (at9, setSectionsAny [mkSection "102" "Later"; mkSection "103" "Today"]
            (setAssigneeAny ["me"] emptyQuery), None)
  /\ (forall bad post,
        lastNamed bad demoSections = None ->
        InMyTasksSectionsMutator (["Later"; "Today"] ++ bad :: post) tt
                                 emptyQuery at9
        = (at9, setSectionsAny [mkSection "102" "Later"; mkSection "103" "Today"]
                  (setAssigneeAny ["me"] emptyQuery),
           Some ("Section '" ++ bad ++ "' not found"))).
Proof.
  apply (@InMyTasksSections_resolves demoDomain demoCollaborators
           ["Later"; "Today"]
           [mkSection "102" "Later"; mkSection "103" "Today"]
           tt emptyQuery at9 at9 at9 at9 "me" "my tasks" demoSections);
    try reflexivity.
  repeat constructor.
Defined.

Lemma tag_not_found_demo :
  WithTagsAnyOfMutator (["urgent"] ++ "gone" :: ["later"]) tt emptyQuery at9
  = (at9, setTagsAny ["tag-1"] emptyQuery, Some ("Tag '" ++ "gone" ++ "' not found"))
  /\ WithoutTagsAnyOfMutator (["urgent"] ++ "gone" :: ["later"]) tt emptyQuery at9
     = (at9, setTagsNot ["tag-1"] emptyQuery,
        Some ("Tag '" ++ "gone" ++ "' not found")).
Proof.
  apply (@tag_not_found demoDomain demoCollaborators
           ["urgent"] ["later"] "gone" ["tag-1"] tt emptyQuery at9 at9 demoTags);
    try reflexivity.
  constructor; [reflexivity|constructor].
Defined.

Lemma singular_mutators_distinct_demo :
  isOk (snd (runMutators tt (map mutatorOf [MOnlyIncomplete; MWithoutDue;
                                            MDueInAtMostDays 7])
                         0 emptyQuery (at9, []))).
Proof.
  apply (proj2 (@singular_mutators_succeed_iff_distinct
                  demoDomain demoCollaborators
                  [MOnlyIncomplete; MWithoutDue; MDueInAtMostDays 7]
                  tt (at9, []))).
  simpl.
  repeat (apply NoDup_cons; split;
          [rewrite ?elem_of_cons, elem_of_nil; intuition discriminate|]).
  apply NoDup_nil_2.
Defined.

Lemma singular_mutators_commute_demo :
  exists q12,
    mutatorOf MOnlyIncomplete tt
              (snd (fst (mutatorOf (MDueInDays 3) tt emptyQuery at9))) at9
    = (at9, q12, snd (mutatorOf MOnlyIncomplete tt emptyQuery at9))
    /\ mutatorOf (MDueInDays 3) tt
                 (snd (fst (mutatorOf MOnlyIncomplete tt emptyQuery at9))) at9
       = (at9, q12, snd (mutatorOf (MDueInDays 3) tt emptyQuery at9)).
Proof.
  apply (@singular_mutators_commute demoDomain demoCollaborators
           (MDueInDays 3) MOnlyIncomplete tt emptyQuery at9).
  discriminate.
Defined.

Lemma filterTasks_keeps_accepted_demo :
  exists log,
    filterTasks tt emptyQuery [keepAll; dropThree] [1; 2; 3; 4]%nat (at9, [])
    = ((at9, log),
       Ok (List.filter
             (fun task => forallb (fun keep => keep task)
                                  [fun _ => true; fun t => negb (Nat.eqb t 3)])
             [1; 2; 3; 4]%nat)).
Proof.
  apply (@filterTasks_keeps_accepted demoDomain
           tt emptyQuery [keepAll; dropThree]
           [fun _ => true; fun t => negb (Nat.eqb t 3)]
           [1; 2; 3; 4]%nat (at9, [])).
  repeat constructor.
Defined.

Lemma exec_returns_first_error_demo :
  exec badFilterRule tt (at9, [])
  = ((at9, [EvGetClient; EvGate 0; EvMutator 0; EvSearch;
            EvFilter 0 1%nat; EvFilter 0 2%nat]),
     Fail "missing assignee: task")
  /\ exec badQueryRule tt (at9, [])
     = ((at9, [EvGetClient; EvGate 0; EvMutator 0; EvMutator 1]),
        Fail "Tag 'gone' not found").
Proof.
  split.
  - destruct (@exec_returns_first_error demoDomain demoCollaborators
                badFilterRule tt (at9, [])) as [_ Hafter].
    edestruct Hafter as [_ Hquery]; [reflexivity|reflexivity|].
    edestruct Hquery as [_ Hfilter]; [reflexivity|].
    edestruct Hfilter as [Hexec _]; [reflexivity|reflexivity|].
    exact Hexec.
  - destruct (@exec_returns_first_error demoDomain demoCollaborators
                badQueryRule tt (at9, [])) as [_ Hafter].
    edestruct Hafter as [Hmut _]; [reflexivity|reflexivity|].
    edestruct Hmut as [Hexec _]; [reflexivity|].
    exact Hexec.
Defined.

Lemma filters_short_circuit_demo :
  @runFilters demoDomain tt emptyQuery 3%nat
              ([keepAll] ++ dropThree :: [failOnTwoFilter]) 0 (at9, [])
  = ((at9, [EvFilter 0 3%nat; EvFilter 1 3%nat]), Ok false).
Proof.
  apply (@filters_short_circuit demoDomain
           tt emptyQuery 3%nat [keepAll] [failOnTwoFilter] dropThree
           (at9, []) (at9, [@EvFilter demoDomain 0 3%nat]) at9 (Ok false)).
  - reflexivity.
  - reflexivity.
  - discriminate.
Defined.

Lemma listings_return_all_pages_demo :
  ClientImpl.GetSections 3 tt "my tasks" at9 = Some (at9, Ok demoSections).
Proof.
  apply (proj1 (@listings_return_all_pages demoDomain demoTransport tt 3)
               "my tasks" at9 at9
               [[mkSection "101" "Today"; mkSection "102" "Later"];
                [mkSection "103" "Today"]]
               (Ok tt)).
  - eapply ClientImpl.servedMore; [reflexivity|].
    apply ClientImpl.servedLast. reflexivity.
  - simpl. lia.
Defined.

Lemma listings_never_return_demo :
  ClientImpl.GetTasksFromSection 50 tt (mkSection "103" "Today") at9 = None.
Proof.
  apply (proj2 (@listings_never_return_on_endless_pages
                  demoDomain demoTransport tt)
               (mkSection "103" "Today")).
  intros values w. exists w, [1%nat], "again". reflexivity.
Defined.

Lemma section_filter_phase_demo :
  exists log,
    filterTasks tt emptyQuery [InMyTasksSectionsFilter] [1; 2]%nat (at9, [])
    = ((at9, log), Fail ("missing assignee: " ++ "task")).
Proof.
  apply (proj2 (@section_filter_phase demoDomain demoCollaborators
                  tt emptyQuery [1; 2]%nat (at9, []))
               [] 1%nat [2%nat]).
  - reflexivity.
  - constructor.
  - reflexivity.
Defined.

End MoreDemoFacts.

Module NotesDemoFacts.
Import Html DemoNotes.
#[local] Existing Instance notesDomain.
#[local] Existing Instance demoNotes.

Lemma FixUnlinkedURL_sends_body_demo :
  FixUnlinkedURLActor tt "1201" oneTask
  = UpdateTask tt "1201" linkedBody
      (setParsedHTMLNotes "1201"
         (fixUnlinkedURL (ParsedHTMLNotes oneTask "1201")) oneTask).
Proof.
  apply (proj1 (@FixUnlinkedURL_sends_body notesDomain demoNotes
                  tt "1201" oneTask eq_refl) linkedBody).
  vm_compute. reflexivity.
Defined.

End NotesDemoFacts.
